(** * nanobot: message bus, turn engine, subagents and tool contracts

    A shallow embedding of the orchestration core of nanobot
    (agent/loop.py, agent/subagent.py, agent/tools/base.py,
    agent/tools/filesystem.py, bus/queue.py,
    providers/litellm_provider.py) and the properties of its
    specification.

    Python [str] values are byte strings holding UTF-8 text; searching,
    counting and replacing a substring give the same result on bytes as on
    code points, UTF-8 being self-synchronising. *)

From Stdlib Require Import ZArith QArith List Ascii String DecimalString Bool Lia.
From stdpp Require Import gmap strings list sorting.

Open Scope string_scope.
Open Scope list_scope.
#[local] Set Warnings "-register-all".

(** ** Python string operations used by the sources *)

Module PyStr.

(** [s.startswith(p)] *)
Fixpoint startswith (s p : string) {struct p} : bool :=
  match p, s with
  | EmptyString, _ => true
  | String _ _, EmptyString => false
  | String a p', String b s' => Ascii.eqb a b && startswith s' p'
  end.

(** [s[n:]] *)
Fixpoint drop (n : nat) (s : string) : string :=
  match n, s with
  | O, _ => s
  | S _, EmptyString => EmptyString
  | S n', String _ s' => drop n' s'
  end.

(** [s[:n]] *)
Fixpoint take (n : nat) (s : string) : string :=
  match n, s with
  | O, _ => EmptyString
  | S _, EmptyString => EmptyString
  | S n', String c s' => String c (take n' s')
  end.

(** [s.find(sub)], with [None] for Python's -1. *)
Fixpoint find (sub s : string) : option nat :=
  if startswith s sub then Some 0
  else match s with
       | EmptyString => None
       | String _ s' => option_map S (find sub s')
       end.

(** [sub in s] *)
Definition contains (sub s : string) : bool :=
  match find sub s with Some _ => true | None => false end.

(** [s.split(sep, 1)] for a non-empty separator: at most one split, at the
    first occurrence. *)
Definition split1 (sep s : string) : list string :=
  match find sep s with
  | Some i => [take i s; drop (i + String.length sep) s]
  | None => [s]
  end.

(** Scanning of [s.count(sub)] for a non-empty [sub]: after a match the
    scan resumes behind the matched text, [skip] holding how many characters
    of it are still to be passed over. *)
Fixpoint count_scan (sub s : string) (skip : nat) : nat :=
  match s with
  | EmptyString => 0
  | String _ s' =>
      match skip with
      | S k => count_scan sub s' k
      | O => if startswith s sub
             then S (count_scan sub s' (String.length sub - 1))
             else count_scan sub s' 0
      end
  end.

(** [s.count(sub)]: the empty string is counted once between any two
    characters and at both ends. *)
Definition count (sub s : string) : nat :=
  match sub with
  | EmptyString => S (String.length s)
  | String _ _ => count_scan sub s 0
  end.

(** [s.replace(old, new, 1)] *)
Definition replace1 (old new s : string) : string :=
  match find old s with
  | Some i => take i s +:+ new +:+ drop (i + String.length old) s
  | None => s
  end.

(** Start positions at which [sub] is matched in [s], overlapping matches
    included; [off] is the position of the head of [s]. *)
Fixpoint occurrences_from (off : nat) (sub s : string) : list nat :=
  (if startswith s sub then [off] else [])
  ++ match s with
     | EmptyString => []
     | String _ s' => occurrences_from (S off) sub s'
     end.

Definition occurrences (sub s : string) : list nat := occurrences_from 0 sub s.

(** [len(s)]: the number of code points, that is of bytes that do not
    continue a UTF-8 sequence (those in 128..191). *)
Fixpoint len (s : string) : nat :=
  match s with
  | EmptyString => 0
  | String c s' =>
      let n := nat_of_ascii c in
      if (128 <=? n)%nat && (n <=? 191)%nat then len s' else S (len s')
  end.

(** [str(n)] for a natural number. *)
Definition of_nat (n : nat) : string :=
  NilZero.string_of_uint (Nat.to_uint n).

End PyStr.

(** ** Exceptions *)

(** A raised Python [Exception]: filesystem.py tells [PermissionError]
    from every other one, base.py raises [ValueError]; the payload is
    [str(e)].  The cancellation of an asyncio task, which is no [Exception],
    is not modelled. *)
Inductive Exn : Type :=
  | PermissionError (msg : string)
  | ValueError (msg : string)
  | OtherError (msg : string).

Definition exn_str (e : Exn) : string :=
  match e with
  | PermissionError m | ValueError m | OtherError m => m
  end.

(** The outcome of a call that may raise. *)
Inductive Result (A : Type) : Type :=
  | Ok (a : A)
  | Raise (e : Exn).
Arguments Ok {A} a.
Arguments Raise {A} e.

(** ** bus/events.py *)

Module Events.

(** Modelled from the spec: bus/events.py is not among the sources.  The
    record follows section 3, "InboundMessage - {channel, sender_id,
    chat_id, content, media, session_key: derived as channel:chat_id unless
    overridden}". *)
Record InboundMessage : Type := {
  in_channel : string;
  in_sender_id : string;
  in_chat_id : string;
  in_content : string;
  in_media : list string;
  in_session_key_override : option string
}.

Definition session_key (m : InboundMessage) : string :=
  match in_session_key_override m with
  | Some k => k
  | None => in_channel m +:+ ":" +:+ in_chat_id m
  end.

(** Modelled from the spec: "OutboundMessage - {channel, chat_id, content}". *)
Record OutboundMessage : Type := {
  out_channel : string;
  out_chat_id : string;
  out_content : string
}.

End Events.

(** ** JSON-compatible values *)

(** What [json.loads] yields and what tool arguments hold.  A Python [bool]
    is an [int] for [isinstance]; a finite [float] is the rational it
    denotes (comparison of an [int] with a [float] is exact in Python);
    a [dict] keeps its insertion order. *)
Inductive Json : Type :=
  | JNull
  | JBool (b : bool)
  | JInt (z : Z)
  | JFloat (q : Q)
  | JStr (s : string)
  | JArr (items : list Json)
  | JObj (fields : list (string * Json)).

(** [d.get(k)] on the fields of a dict. *)
Fixpoint assoc {A : Type} (k : string) (kvs : list (string * A)) : option A :=
  match kvs with
  | [] => None
  | (k', v) :: rest => if String.eqb k k' then Some v else assoc k rest
  end.

(** The number a value stands for in a comparison, a [bool] being 0 or 1. *)
Definition as_number (j : Json) : option Q :=
  match j with
  | JBool b => Some (inject_Z (if b then 1 else 0))
  | JInt z => Some (inject_Z z)
  | JFloat q => Some q
  | _ => None
  end.

(** Python's [==] on such values: numbers by value whatever their type,
    lists by position, dicts key by key whatever the order. *)
Fixpoint py_eq (a b : Json) {struct a} : bool :=
  match a, b with
  | JNull, JNull => true
  | JStr s, JStr t => String.eqb s t
  | JArr xs, JArr ys =>
      (fix all2 (xs ys : list Json) : bool :=
         match xs, ys with
         | [], [] => true
         | x :: xs', y :: ys' => py_eq x y && all2 xs' ys'
         | _, _ => false
         end) xs ys
  | JObj fs, JObj gs =>
      Nat.eqb (length fs) (length gs)
      && (fix each (fs : list (string * Json)) : bool :=
            match fs with
            | [] => true
            | (k, v) :: fs' =>
                match assoc k gs with
                | Some w => py_eq v w
                | None => false
                end && each fs'
            end) fs
  | _, _ =>
      match as_number a, as_number b with
      | Some p, Some q => Qeq_bool p q
      | _, _ => false
      end
  end.

(** ** bus/queue.py *)

Module Bus.
Import Events.

(** A subscriber callback: the call is recorded by the dispatcher, and it
    may raise on a message. *)
Record Callback : Type := {
  cb_name : string;
  cb_raises : OutboundMessage -> option Exn
}.

(** What the dispatch loop does that can be observed from outside. *)
Inductive DispatchEvent : Type :=
  | Invoked (cb : string) (msg : OutboundMessage)
  | ErrorLogged (channel : string) (e : Exn).

(** The two [asyncio.Queue]s are FIFO lists with the head next to be
    taken; [_outbound_subscribers] is the dict from channel to callbacks. *)
Record MessageBus : Type := {
  inbound : list InboundMessage;
  outbound : list OutboundMessage;
  _outbound_subscribers : gmap string (list Callback);
  _running : bool
}.

Definition init : MessageBus :=
  {| inbound := []; outbound := []; _outbound_subscribers := ∅;
     _running := false |}.

Definition publish_inbound (msg : InboundMessage) (b : MessageBus) : MessageBus :=
  {| inbound := inbound b ++ [msg]; outbound := outbound b;
     _outbound_subscribers := _outbound_subscribers b;
     _running := _running b |}.

Definition publish_outbound (msg : OutboundMessage) (b : MessageBus) : MessageBus :=
  {| inbound := inbound b; outbound := outbound b ++ [msg];
     _outbound_subscribers := _outbound_subscribers b;
     _running := _running b |}.

Definition subscribe_outbound (channel : string) (callback : Callback)
    (b : MessageBus) : MessageBus :=
  let registered :=
    match _outbound_subscribers b !! channel with
    | None => []
    | Some callbacks => callbacks
    end in
  {| inbound := inbound b; outbound := outbound b;
     _outbound_subscribers :=
       <[channel := registered ++ [callback]]> (_outbound_subscribers b);
     _running := _running b |}.

(** The [for callback in subscribers] loop with its inner try/except. *)
Fixpoint deliver (msg : OutboundMessage) (subscribers : list Callback)
    : list DispatchEvent :=
  match subscribers with
  | [] => []
  | cb :: rest =>
      Invoked (cb_name cb) msg ::
      match cb_raises cb msg with
      | Some e => ErrorLogged (out_channel msg) e :: deliver msg rest
      | None => deliver msg rest
      end
  end.

(** One pass through the body of [while self._running]: an empty queue
    makes [wait_for] time out and the loop continues. *)
Definition dispatch_step (st : MessageBus * list DispatchEvent)
    : MessageBus * list DispatchEvent :=
  let (b, log) := st in
  match outbound b with
  | [] => (b, log)
  | msg :: rest =>
      let subscribers := default [] (_outbound_subscribers b !! out_channel msg) in
      ({| inbound := inbound b; outbound := rest;
          _outbound_subscribers := _outbound_subscribers b;
          _running := _running b |},
       log ++ deliver msg subscribers)
  end.

(** [dispatch_outbound] observed for [n] passes of its loop. *)
Fixpoint dispatch_outbound (n : nat) (st : MessageBus * list DispatchEvent)
    : MessageBus * list DispatchEvent :=
  match n with
  | O => st
  | S n' => dispatch_outbound n' (dispatch_step st)
  end.

End Bus.

(** ** providers/base.py *)

Module ProviderBase.

(** Modelled from the spec: providers/base.py is not among the sources.
    "ToolCallRequest - {id, name, arguments: mapping of string to arbitrary
    JSON-compatible value}". *)
Record ToolCallRequest : Type := {
  tc_id : string;
  tc_name : string;
  tc_arguments : Json
}.

(** Modelled from the spec: the result of [chat], "{content: string|null,
    tool_calls: ordered sequence of ToolCallRequest, finish_reason,
    reasoning_content: string|null}"; litellm_provider.py also passes
    [usage]. *)
Record LLMResponse : Type := {
  content : option string;
  tool_calls : list ToolCallRequest;
  finish_reason : string;
  usage : list (string * Z);
  reasoning_content : option string
}.

(** Modelled from the spec: "if the response carries tool calls". *)
Definition has_tool_calls (r : LLMResponse) : bool :=
  match tool_calls r with [] => false | _ :: _ => true end.

End ProviderBase.

(** ** The conversation message list *)

Module Conversation.

(** What [_build_user_content] yields: the text alone, or the encoded
    images followed by the text. *)
Inductive UserContent : Type :=
  | TextContent (text : string)
  | PartsContent (images : list string) (text : string).

(** One entry of [tool_call_dicts]; [tcd_arguments] is the string made by
    [json.dumps]. *)
Record ToolCallDict : Type := {
  tcd_id : string;
  tcd_name : string;
  tcd_arguments : string
}.

(** The dicts of the message list handed to the provider. *)
Inductive ChatMessage : Type :=
  | MsgSystem (content : string)
  | MsgHistory (role content : string)
  | MsgUser (content : UserContent)
  | MsgAssistant (content : string) (tool_calls : option (list ToolCallDict))
                 (reasoning_content : option string)
  | MsgTool (tool_call_id name content : string).

End Conversation.

(** ** providers/litellm_provider.py *)

Module LiteLLM.
Import ProviderBase Conversation.

(** The fields of a provider specification that litellm_provider.py
    reads; providers/registry.py, which declares it, is not among the
    sources. *)
Record ProviderSpec : Type := {
  litellm_prefix : string;
  skip_prefixes : list string;
  strip_model_prefix : bool;
  model_overrides : list (string * list (string * Json))
}.

Record LiteLLMProvider : Type := {
  api_base : option string;
  default_model : string;
  extra_headers : list (string * string);
  _gateway : option ProviderSpec
}.

(** The keyword arguments of [acompletion]. *)
Record Kwargs : Type := {
  kw_model : string;
  kw_messages : list ChatMessage;
  kw_max_tokens : Z;
  kw_temperature : Q;
  kw_overrides : list (string * Json);
  kw_api_base : option string;
  kw_extra_headers : option (list (string * string));
  kw_tools : option (list Json);
  kw_tool_choice : option string
}.

(** The parts of a LiteLLM completion that [_parse_response] reads. *)
Inductive RawArguments : Type :=
  | ArgsStr (s : string)
  | ArgsValue (j : Json).

Record RawToolCall : Type := {
  rtc_id : string;
  rtc_name : string;
  rtc_arguments : RawArguments
}.

Record RawMessage : Type := {
  rm_content : option string;
  rm_tool_calls : option (list RawToolCall);
  rm_reasoning_content : option string
}.

Record RawChoice : Type := {
  rc_message : RawMessage;
  rc_finish_reason : option string
}.

Record RawUsage : Type := {
  prompt_tokens : Z;
  completion_tokens : Z;
  total_tokens : Z
}.

Record RawResponse : Type := {
  choices : list RawChoice;
  raw_usage : option RawUsage
}.

(** [model.split("/")[-1]] *)
Fixpoint last_segment (s : string) : string :=
  match s with
  | EmptyString => EmptyString
  | String c s' =>
      if PyStr.contains "/" s' then last_segment s'
      else if Ascii.eqb c "/" then s' else s
  end.

(** [str.lower] on the ASCII letters (model names are ASCII). *)
Definition lower_char (c : ascii) : ascii :=
  let n := nat_of_ascii c in
  if (65 <=? n)%nat && (n <=? 90)%nat then ascii_of_nat (n + 32) else c.

Fixpoint lower (s : string) : string :=
  match s with
  | EmptyString => EmptyString
  | String c s' => String (lower_char c) (lower s')
  end.

Section Provider.

(** [find_by_model] of providers/registry.py and [json.loads], where
    [None] stands for [JSONDecodeError]. *)
Variable find_by_model : string -> option ProviderSpec.
Variable json_loads : string -> option Json.

Definition _resolve_model (self : LiteLLMProvider) (model : string) : string :=
  match _gateway self with
  | Some gateway =>
      let prefix := litellm_prefix gateway in
      let model := if strip_model_prefix gateway then last_segment model else model in
      if negb (String.eqb prefix "") && negb (PyStr.startswith model (prefix +:+ "/"))
      then prefix +:+ "/" +:+ model
      else model
  | None =>
      match find_by_model model with
      | Some spec =>
          if negb (String.eqb (litellm_prefix spec) "")
             && negb (existsb (PyStr.startswith model) (skip_prefixes spec))
          then litellm_prefix spec +:+ "/" +:+ model
          else model
      | None => model
      end
  end.

(** The first pattern of the model's specification found in the lowered
    model name decides the overrides. *)
Fixpoint first_override (model_lower : string)
    (overrides : list (string * list (string * Json))) : list (string * Json) :=
  match overrides with
  | [] => []
  | (pattern, o) :: rest =>
      if PyStr.contains pattern model_lower then o
      else first_override model_lower rest
  end.

Definition _apply_model_overrides (model : string) : list (string * Json) :=
  match find_by_model model with
  | Some spec => first_override (lower model) (model_overrides spec)
  | None => []
  end.

Definition build_kwargs (self : LiteLLMProvider) (messages : list ChatMessage)
    (tools : option (list Json)) (model : option string)
    (max_tokens : Z) (temperature : Q) : Kwargs :=
  let chosen := match model with
                | Some m => if String.eqb m "" then default_model self else m
                | None => default_model self
                end in
  let model := _resolve_model self chosen in
  let with_tools := match tools with
                    | Some (_ :: _) => true
                    | _ => false
                    end in
  {| kw_model := model;
     kw_messages := messages;
     kw_max_tokens := max_tokens;
     kw_temperature := temperature;
     kw_overrides := _apply_model_overrides model;
     kw_api_base := match api_base self with
                    | Some b => if String.eqb b "" then None else Some b
                    | None => None
                    end;
     kw_extra_headers := match extra_headers self with
                         | [] => None
                         | h => Some h
                         end;
     kw_tools := if with_tools then tools else None;
     kw_tool_choice := if with_tools then Some "auto" else None |}.

Definition parse_tool_call (tc : RawToolCall) : ToolCallRequest :=
  let args := match rtc_arguments tc with
              | ArgsStr s => match json_loads s with
                             | Some j => j
                             | None => JObj [("raw", JStr s)]
                             end
              | ArgsValue j => j
              end in
  {| tc_id := rtc_id tc; tc_name := rtc_name tc; tc_arguments := args |}.

(** [response.choices[0]] raises [IndexError] on an empty list. *)
Definition _parse_response (response : RawResponse) : Result LLMResponse :=
  match choices response with
  | [] => Raise (OtherError "list index out of range")
  | choice :: _ =>
      let message := rc_message choice in
      Ok {| content := rm_content message;
            tool_calls := match rm_tool_calls message with
                          | Some tcs => map parse_tool_call tcs
                          | None => []
                          end;
            finish_reason := match rc_finish_reason choice with
                             | Some r => if String.eqb r "" then "stop" else r
                             | None => "stop"
                             end;
            usage := match raw_usage response with
                     | Some u => [("prompt_tokens", prompt_tokens u);
                                  ("completion_tokens", completion_tokens u);
                                  ("total_tokens", total_tokens u)]
                     | None => []
                     end;
            reasoning_content := rm_reasoning_content message |}
  end.

(** The response built in the [except Exception] branch of [chat]; the
    fields it leaves out take the defaults of [LLMResponse]. *)
Definition error_response (e : Exn) : LLMResponse :=
  {| content := Some ("调用 LLM 时出错: " +:+ exn_str e);
     tool_calls := [];
     finish_reason := "error";
     usage := [];
     reasoning_content := None |}.

(** [chat]: [acompletion] is the LiteLLM call, which answers or raises.
    The result tells whether [chat] itself returns or raises. *)
Definition chat (self : LiteLLMProvider)
    (acompletion : Kwargs -> Result RawResponse)
    (messages : list ChatMessage) (tools : option (list Json))
    (model : option string) (max_tokens : Z) (temperature : Q)
    : Result LLMResponse :=
  let kwargs := build_kwargs self messages tools model max_tokens temperature in
  let attempt :=
    match acompletion kwargs with
    | Ok response => _parse_response response
    | Raise e => Raise e
    end in
  match attempt with
  | Ok r => Ok r
  | Raise e => Ok (error_response e)
  end.

End Provider.

End LiteLLM.

(** ** agent/tools/base.py *)

Module ToolBase.

(** A bound of a schema: an [int] or a [float]. *)
Inductive Number : Type :=
  | NInt (z : Z)
  | NFloat (q : Q).

Definition number_value (n : Number) : Q :=
  match n with NInt z => inject_Z z | NFloat q => q end.

Definition number_json (n : Number) : Json :=
  match n with NInt z => JInt z | NFloat q => JFloat q end.

(** The keys of a JSON-schema dict that [_validate] reads; [None] is an
    absent key. *)
Inductive Schema : Type := MkSchema {
  s_type : option string;
  s_enum : option (list Json);
  s_minimum : option Number;
  s_maximum : option Number;
  s_minLength : option Z;
  s_maxLength : option Z;
  s_properties : option (list (string * Schema));
  s_required : option (list string);
  s_items : option Schema
}.

(** The schema [{}]. *)
Definition empty_schema : Schema :=
  MkSchema None None None None None None None None None.

(** [{**schema, "type": t}] *)
Definition with_type (t : string) (s : Schema) : Schema :=
  MkSchema (Some t) (s_enum s) (s_minimum s) (s_maximum s) (s_minLength s)
           (s_maxLength s) (s_properties s) (s_required s) (s_items s).

(** [isinstance(val, _TYPE_MAP[t])], with [None] when [t] is no key of
    [_TYPE_MAP]. *)
Definition isinstance_of (t : string) (val : Json) : option bool :=
  if String.eqb t "string" then
    Some match val with JStr _ => true | _ => false end
  else if String.eqb t "integer" then
    Some match val with JInt _ | JBool _ => true | _ => false end
  else if String.eqb t "number" then
    Some match val with JInt _ | JBool _ | JFloat _ => true | _ => false end
  else if String.eqb t "boolean" then
    Some match val with JBool _ => true | _ => false end
  else if String.eqb t "array" then
    Some match val with JArr _ => true | _ => false end
  else if String.eqb t "object" then
    Some match val with JObj _ => true | _ => false end
  else None.

(** [t in self._TYPE_MAP and not isinstance(val, self._TYPE_MAP[t])] *)
Definition type_mismatch (t : option string) (val : Json) : bool :=
  match t with
  | Some t => match isinstance_of t val with
              | Some ok => negb ok
              | None => false
              end
  | None => false
  end.

Definition type_is (t : option string) (name : string) : bool :=
  match t with Some t => String.eqb t name | None => false end.

(** [val < bound] and [val > bound] on numbers. *)
Definition num_lt (val : Json) (bound : Number) : bool :=
  match as_number val with
  | Some v => negb (Qle_bool (number_value bound) v)
  | None => false
  end.

Definition num_gt (val : Json) (bound : Number) : bool :=
  match as_number val with
  | Some v => negb (Qle_bool v (number_value bound))
  | None => false
  end.

(** [path + '.' + k if path else k] *)
Definition child_path (path k : string) : string :=
  if String.eqb path "" then k else path +:+ "." +:+ k.

(** [f"{path}[{i}]" if path else f"[{i}]"] *)
Definition item_path (path : string) (i : nat) : string :=
  if String.eqb path "" then "[" +:+ PyStr.of_nat i +:+ "]"
  else path +:+ "[" +:+ PyStr.of_nat i +:+ "]".

Section Validate.

(** The text an f-string puts for a value: Python's [str] of a number or
    of a list. *)
Variable fmt : Json -> string.

Definition enum_errors (label : string) (schema : Schema) (val : Json) : list string :=
  match s_enum schema with
  | Some enum =>
      if negb (existsb (py_eq val) enum)
      then [label +:+ " must be one of " +:+ fmt (JArr enum)]
      else []
  | None => []
  end.

Definition range_errors (label : string) (schema : Schema) (val : Json) : list string :=
  if type_is (s_type schema) "integer" || type_is (s_type schema) "number" then
    match s_minimum schema with
    | Some m => if num_lt val m
                then [label +:+ " must be >= " +:+ fmt (number_json m)] else []
    | None => []
    end ++
    match s_maximum schema with
    | Some m => if num_gt val m
                then [label +:+ " must be <= " +:+ fmt (number_json m)] else []
    | None => []
    end
  else [].

Definition length_errors (label : string) (schema : Schema) (val : Json) : list string :=
  if type_is (s_type schema) "string" then
    match val with
    | JStr s =>
        match s_minLength schema with
        | Some n => if (Z.of_nat (PyStr.len s) <? n)%Z
                    then [label +:+ " must be at least " +:+ fmt (JInt n) +:+ " chars"]
                    else []
        | None => []
        end ++
        match s_maxLength schema with
        | Some n => if (n <? Z.of_nat (PyStr.len s))%Z
                    then [label +:+ " must be at most " +:+ fmt (JInt n) +:+ " chars"]
                    else []
        | None => []
        end
    | _ => []
    end
  else [].

(** [for k in schema.get("required", [])] *)
Fixpoint required_errors (path : string) (required : list string)
    (fields : list (string * Json)) : list string :=
  match required with
  | [] => []
  | k :: rest =>
      match assoc k fields with
      | None => ["missing required " +:+ child_path path k]
      | Some _ => []
      end ++ required_errors path rest fields
  end.

Fixpoint _validate (val : Json) (schema : Schema) (path : string) {struct val}
    : list string :=
  let t := s_type schema in
  let label := if String.eqb path "" then "parameter" else path in
  if type_mismatch t val then [label +:+ " should be " +:+ default "" t]
  else
    enum_errors label schema val
    ++ range_errors label schema val
    ++ length_errors label schema val
    ++ (if type_is t "object" then
          match val with
          | JObj fields =>
              let props := default [] (s_properties schema) in
              required_errors path (default [] (s_required schema)) fields
              ++ (fix each (fs : list (string * Json)) : list string :=
                    match fs with
                    | [] => []
                    | (k, v) :: fs' =>
                        match assoc k props with
                        | Some sub => _validate v sub (child_path path k)
                        | None => []
                        end ++ each fs'
                    end) fields
          | _ => []
          end
        else [])
    ++ (if type_is t "array" then
          match s_items schema, val with
          | Some sub, JArr items =>
              (fix each (i : nat) (xs : list Json) : list string :=
                 match xs with
                 | [] => []
                 | x :: xs' =>
                     _validate x sub (item_path path i) ++ each (S i) xs'
                 end) 0%nat items
          | _, _ => []
          end
        else []).

(** [validate_params]: [parameters] is the tool's schema, [{}] when the
    property is empty.  The message of the error quotes the type as [repr]
    shows a string that holds no quote and no escape. *)
Definition validate_params (parameters : Schema) (params : Json)
    : Result (list string) :=
  let schema := parameters in
  match s_type schema with
  | Some t =>
      if negb (String.eqb t "object")
      then Raise (ValueError ("Schema must be object type, got '" +:+ t +:+ "'"))
      else Ok (_validate params (with_type "object" schema) "")
  | None => Ok (_validate params (with_type "object" schema) "")
  end.

End Validate.

End ToolBase.

(** ** agent/tools/filesystem.py *)

Module Filesystem.

(** What a resolved path names on disk. *)
Inductive Node : Type :=
  | File (content : string)
  | Dir.

(** The file system is a [gmap string Node]: resolved path strings to what
    they name. *)

Definition newline : string := String (ascii_of_nat 10) EmptyString.

Definition path_exists (fs : gmap string Node) (p : string) : bool :=
  match fs !! p with Some _ => true | None => false end.

Definition is_file (fs : gmap string Node) (p : string) : bool :=
  match fs !! p with Some (File _) => true | _ => false end.

Definition is_dir (fs : gmap string Node) (p : string) : bool :=
  match fs !! p with Some Dir => true | _ => false end.

Definition read_text (fs : gmap string Node) (p : string) : Result string :=
  match fs !! p with
  | Some (File c) => Ok c
  | Some Dir => Raise (OtherError ("[Errno 21] Is a directory: '" +:+ p +:+ "'"))
  | None => Raise (OtherError ("[Errno 2] No such file or directory: '" +:+ p +:+ "'"))
  end.

Definition write_text (fs : gmap string Node) (p content : string) : Result unit * gmap string Node :=
  match fs !! p with
  | Some Dir => (Raise (OtherError ("[Errno 21] Is a directory: '" +:+ p +:+ "'")), fs)
  | _ => (Ok tt, <[p := File content]> fs)
  end.

(** The directories above an absolute path, outermost first: the text
    before each of its slashes. *)
Fixpoint ancestors_from (before s : string) : list string :=
  match s with
  | EmptyString => []
  | String c s' =>
      (if Ascii.eqb c "/"
       then [if String.eqb before "" then "/" else before]
       else [])
      ++ ancestors_from (before +:+ String c EmptyString) s'
  end.

Definition ancestors (p : string) : list string := ancestors_from "" p.

(** [p.parent] *)
Definition parent (p : string) : string := List.last (ancestors p) p.

(** [p.name] *)
Definition name_of (p : string) : string := LiteLLM.last_segment p.

(** [p.mkdir(parents=True, exist_ok=True)] along the directories [dirs],
    outermost first: a file in the way raises. *)
Fixpoint mkdir_all (fs : gmap string Node) (dirs : list string) : Result unit * gmap string Node :=
  match dirs with
  | [] => (Ok tt, fs)
  | d :: rest =>
      match fs !! d with
      | Some (File _) =>
          (Raise (OtherError ("[Errno 17] File exists: '" +:+ d +:+ "'")), fs)
      | Some Dir => mkdir_all fs rest
      | None => mkdir_all (<[d := Dir]> fs) rest
      end
  end.

Definition mkdir_parents (fs : gmap string Node) (dir : string) : Result unit * gmap string Node :=
  mkdir_all fs (ancestors dir ++ [dir]).

(** [sorted(dir.iterdir())] *)
Definition iterdir_sorted (fs : gmap string Node) (dir : string) : list string :=
  merge_sort (fun a b => Is_true (String.leb a b))
    (filter (fun p => parent p = dir ∧ p ≠ dir) (map fst (map_to_list fs))).

Section Tools.

(** [Path.expanduser] and [Path.resolve], which depend on the home
    directory, the working directory and the links of the machine; the
    results are given as strings, as [str] shows them. *)
Variable expanduser : string -> string.
Variable resolve : string -> string.

Definition _resolve_path (path : string) (allowed_dir : option string)
    : Result string :=
  let resolved := resolve (expanduser path) in
  match allowed_dir with
  | Some dir =>
      if negb (PyStr.startswith resolved (resolve dir))
      then Raise (PermissionError
                    ("路径 " +:+ path +:+ " 在允许的目录 " +:+ dir +:+ " 之外"))
      else Ok resolved
  | None => Ok resolved
  end.

(** The two [except] clauses that close every [execute]. *)
Definition except (on_permission on_other : string) (e : Exn) : string :=
  match e with
  | PermissionError m => on_permission +:+ m
  | _ => on_other +:+ exn_str e
  end.

Definition ReadFileTool_execute (allowed_dir : option string) (path : string)
    (fs : gmap string Node) : string :=
  let handler := except "错误：" "读取文件时出错：" in
  match _resolve_path path allowed_dir with
  | Raise e => handler e
  | Ok file_path =>
      if negb (path_exists fs file_path) then "错误：未找到文件：" +:+ path
      else if negb (is_file fs file_path) then "错误：不是文件：" +:+ path
      else match read_text fs file_path with
           | Ok content => content
           | Raise e => handler e
           end
  end.

Definition WriteFileTool_execute (allowed_dir : option string)
    (path content : string) (fs : gmap string Node) : string * gmap string Node :=
  let handler := except "错误：" "写入文件时出错：" in
  match _resolve_path path allowed_dir with
  | Raise e => (handler e, fs)
  | Ok file_path =>
      match mkdir_parents fs (parent file_path) with
      | (Raise e, fs1) => (handler e, fs1)
      | (Ok _, fs1) =>
          match write_text fs1 file_path content with
          | (Raise e, fs2) => (handler e, fs2)
          | (Ok _, fs2) =>
              ("成功写入 " +:+ PyStr.of_nat (PyStr.len content) +:+ " 字节到 " +:+ path,
               fs2)
          end
      end
  end.

Definition EditFileTool_execute (allowed_dir : option string)
    (path old_text new_text : string) (fs : gmap string Node) : string * gmap string Node :=
  let handler := except "错误：" "编辑文件时出错：" in
  match _resolve_path path allowed_dir with
  | Raise e => (handler e, fs)
  | Ok file_path =>
      if negb (path_exists fs file_path) then ("错误：未找到文件：" +:+ path, fs)
      else
        match read_text fs file_path with
        | Raise e => (handler e, fs)
        | Ok content =>
            if negb (PyStr.contains old_text content)
            then ("错误：在文件中未找到old_text。请确保它完全匹配。", fs)
            else
              let count := PyStr.count old_text content in
              if (1 <? count)%nat
              then ("警告：old_text出现了" +:+ PyStr.of_nat count
                    +:+ "次。请提供更多上下文使其唯一。", fs)
              else
                let new_content := PyStr.replace1 old_text new_text content in
                match write_text fs file_path new_content with
                | (Raise e, fs1) => (handler e, fs1)
                | (Ok _, fs1) => ("成功编辑了" +:+ path, fs1)
                end
        end
  end.

(** [sep.join(items)] *)
Fixpoint join (sep : string) (items : list string) : string :=
  match items with
  | [] => ""
  | [x] => x
  | x :: rest => x +:+ sep +:+ join sep rest
  end.

Definition ListDirTool_execute (allowed_dir : option string) (path : string)
    (fs : gmap string Node) : string :=
  let handler := except "Error: " "Error listing directory: " in
  match _resolve_path path allowed_dir with
  | Raise e => handler e
  | Ok dir_path =>
      if negb (path_exists fs dir_path) then "错误：未找到目录：" +:+ path
      else if negb (is_dir fs dir_path) then "错误：不是目录：" +:+ path
      else
        let items :=
          map (fun item => (if is_dir fs item then "📁 " else "📄 ") +:+ name_of item)
              (iterdir_sorted fs dir_path) in
        match items with
        | [] => "Directory " +:+ path +:+ " is empty"
        | _ => join newline items
        end
  end.

End Tools.

End Filesystem.

(** ** The tools and their registry *)

Module Tools.

(** The tool instances that loop.py and subagent.py construct, each with
    the arguments of its constructor; a path is the string it prints as. *)
Inductive Tool : Type :=
  | ReadFileTool (allowed_dir : option string)
  | WriteFileTool (allowed_dir : option string)
  | EditFileTool (allowed_dir : option string)
  | ListDirTool (allowed_dir : option string)
  | ExecTool (working_dir : string) (timeout : Z) (restrict_to_workspace : bool)
  | WebSearchTool (api_key : option string)
  | WebFetchTool
  | MessageTool
  | SpawnTool
  | CronTool.

(** The [name] property.  filesystem.py gives the first four, loop.py
    looks up "message", "spawn" and "cron"; shell.py and web.py are not
    among the sources, and for their three tools only that the names differ
    from the others matters here. *)
Definition name (t : Tool) : string :=
  match t with
  | ReadFileTool _ => "read_file"
  | WriteFileTool _ => "write_file"
  | EditFileTool _ => "edit_file"
  | ListDirTool _ => "list_dir"
  | ExecTool _ _ _ => "exec"
  | WebSearchTool _ => "web_search"
  | WebFetchTool => "web_fetch"
  | MessageTool => "message"
  | SpawnTool => "spawn"
  | CronTool => "cron"
  end.

(** [d[k] = v] on a dict kept in insertion order. *)
Fixpoint put {A : Type} (k : string) (v : A) (d : list (string * A))
    : list (string * A) :=
  match d with
  | [] => [(k, v)]
  | (k', v') :: rest =>
      if String.eqb k k' then (k', v) :: rest else (k', v') :: put k v rest
  end.

(** Modelled from the spec: agent/tools/registry.py is not among the
    sources.  "The registry is a mapping from name to that interface":
    [register] stores a tool under its name, [get] looks a name up, and
    [get_definitions] lists the registered tools for the provider. *)
Definition register (tool : Tool) (registry : list (string * Tool))
    : list (string * Tool) :=
  put (name tool) tool registry.

Definition get (tool_name : string) (registry : list (string * Tool))
    : option Tool :=
  assoc tool_name registry.

Definition get_definitions (registry : list (string * Tool)) : list Tool :=
  map snd registry.

(** What [AgentLoop] and [SubagentManager] both keep of their constructor
    arguments and build their tools from. *)
Record ToolSettings : Type := {
  workspace : string;
  brave_api_key : option string;
  exec_timeout : Z;
  restrict_to_workspace : bool
}.

(** [AgentLoop._register_default_tools]; [cron_service] tells whether the
    loop was given one. *)
Definition _register_default_tools (self : ToolSettings) (cron_service : bool)
    : list (string * Tool) :=
  let allowed_dir :=
    if restrict_to_workspace self then Some (workspace self) else None in
  let tools := [] in
  let tools := register (ReadFileTool allowed_dir) tools in
  let tools := register (WriteFileTool allowed_dir) tools in
  let tools := register (EditFileTool allowed_dir) tools in
  let tools := register (ListDirTool allowed_dir) tools in
  let tools := register (ExecTool (workspace self) (exec_timeout self)
                                  (restrict_to_workspace self)) tools in
  let tools := register (WebSearchTool (brave_api_key self)) tools in
  let tools := register WebFetchTool tools in
  let tools := register MessageTool tools in
  let tools := register SpawnTool tools in
  if cron_service then register CronTool tools else tools.

(** The registry built at the head of [SubagentManager._run_subagent]. *)
Definition subagent_tools (self : ToolSettings) : list (string * Tool) :=
  let tools := [] in
  let allowed_dir :=
    if restrict_to_workspace self then Some (workspace self) else None in
  let tools := register (ReadFileTool allowed_dir) tools in
  let tools := register (WriteFileTool allowed_dir) tools in
  let tools := register (ListDirTool allowed_dir) tools in
  let tools := register (ExecTool (workspace self) (exec_timeout self)
                                  (restrict_to_workspace self)) tools in
  let tools := register (WebSearchTool (brave_api_key self)) tools in
  register WebFetchTool tools.

End Tools.

(** ** session/manager.py *)

Module Sessions.

Record Entry : Type := {
  role : string;
  entry_content : string
}.

(** Modelled from the spec: session/manager.py is not among the sources.
    "Session - {key: string, history: ordered sequence of {role, content}
    entries}"; [add_message] appends one entry, [get_history] is the
    snapshot of the history the turn reads. *)
Record Session : Type := {
  key : string;
  history : list Entry
}.

Definition add_message (r c : string) (s : Session) : Session :=
  {| key := key s; history := history s ++ [{| role := r; entry_content := c |}] |}.

Definition get_history (s : Session) : list Conversation.ChatMessage :=
  map (fun e => Conversation.MsgHistory (role e) (entry_content e)) (history s).

(** Modelled from the spec: "get_or_create(session_key) -> Session,
    save(Session) -> void" over the store of sessions by key. *)
Definition get_or_create (k : string) (store : gmap string Session)
    : Session * gmap string Session :=
  match store !! k with
  | Some s => (s, store)
  | None => let s := {| key := k; history := [] |} in (s, <[k := s]> store)
  end.

Definition save (s : Session) (store : gmap string Session)
    : gmap string Session :=
  <[key s := s]> store.

End Sessions.

(** ** The running system *)

Module Runtime.
Import Events ProviderBase Conversation Tools Sessions.

(** The addressing state that [set_context] leaves on the shared message,
    spawn and cron tool instances. *)
Record ToolContexts : Type := {
  message_context : option (string * string);
  spawn_context : option (string * string);
  cron_context : option (string * string)
}.

(** What a turn asks of the outside, and what it is answered. *)
Inductive Event : Type :=
  | LlmCall (messages : list ChatMessage) (answer : Result LLMResponse)
  | ToolRun (tool_name : string) (arguments : Json) (answer : Result string).

Section WithWorld.

(** Whatever the provider and the tools act on: the model behind the
    provider, the disk, the network. *)
Context {W : Type}.

(** The collaborators of a turn.  The provider and [ToolRegistry.execute]
    answer or raise, and may change the world; [json.dumps] and the text of
    the prompts are those of the [ContextBuilder]. *)
Record Env : Type := {
  provider_chat : list ChatMessage -> list Tool -> string -> W -> Result LLMResponse * W;
  tools_execute : list (string * Tool) -> ToolContexts -> string -> Json -> W
                  -> Result string * W;
  json_dumps : Json -> string;
  build_system_prompt : W -> string;
  encode_images : list string -> W -> list string
}.

(** Everything the running system mutates. *)
Record State : Type := {
  bus : Bus.MessageBus;
  sessions : gmap string Session;
  contexts : ToolContexts;
  world : W;
  log : list Event
}.

(** A computation that reads and writes the state and may raise; the state
    at the point of a raise is kept. *)
Definition M (A : Type) : Type := State -> Result A * State.

Definition ret {A : Type} (a : A) : M A := fun st => (Ok a, st).

Definition bind {A B : Type} (m : M A) (k : A -> M B) : M B :=
  fun st =>
    match m st with
    | (Ok a, st') => k a st'
    | (Raise e, st') => (Raise e, st')
    end.

Definition set_bus (b : Bus.MessageBus) (st : State) : State :=
  {| bus := b; sessions := sessions st; contexts := contexts st;
     world := world st; log := log st |}.

Definition set_sessions (s : gmap string Session) (st : State) : State :=
  {| bus := bus st; sessions := s; contexts := contexts st;
     world := world st; log := log st |}.

Definition set_contexts (c : ToolContexts) (st : State) : State :=
  {| bus := bus st; sessions := sessions st; contexts := c;
     world := world st; log := log st |}.

Definition set_world (w : W) (ev : list Event) (st : State) : State :=
  {| bus := bus st; sessions := sessions st; contexts := contexts st;
     world := w; log := log st ++ ev |}.

End WithWorld.

Arguments Env W : clear implicits.
Arguments State W : clear implicits.
Arguments M W A : clear implicits.

End Runtime.

Declare Scope monad_scope.
Delimit Scope monad_scope with monad.
Notation "x <- m ;; k" := (Runtime.bind m (fun x => k))
  (at level 100, m at next level, right associativity) : monad_scope.
Notation "m ;;; k" := (Runtime.bind m (fun _ => k))
  (at level 100, right associativity) : monad_scope.
Open Scope monad_scope.

(** ** agent/context.py and the tool-calling loop *)

Module Turn.
Import Events ProviderBase Conversation Tools Sessions Runtime.

Section WithEnv.

Context {W : Type}.
Variable env : Env W.

(** [await self.provider.chat(messages=..., tools=..., model=...)] *)
Definition chat (messages : list ChatMessage) (tools : list (string * Tool))
    (model : string) : M W LLMResponse :=
  fun st =>
    let (r, w) := provider_chat env messages (get_definitions tools) model (world st) in
    (r, set_world w [LlmCall messages r] st).

(** [await tools.execute(name, arguments)] *)
Definition execute (tools : list (string * Tool)) (tool_name : string)
    (arguments : Json) : M W string :=
  fun st =>
    let (r, w) := tools_execute env tools (contexts st) tool_name arguments (world st) in
    (r, set_world w [ToolRun tool_name arguments r] st).

(** [ContextBuilder._build_user_content] *)
Definition _build_user_content (text : string) (media : option (list string))
    (w : W) : UserContent :=
  match media with
  | None | Some [] => TextContent text
  | Some paths =>
      match encode_images env paths w with
      | [] => TextContent text
      | images => PartsContent images text
      end
  end.

(** [ContextBuilder.build_messages] *)
Definition build_messages (history : list ChatMessage) (current_message : string)
    (media : option (list string)) (channel chat_id : option string)
    : M W (list ChatMessage) :=
  fun st =>
    let system_prompt := build_system_prompt env (world st) in
    let system_prompt :=
      match channel, chat_id with
      | Some c, Some i =>
          if negb (String.eqb c "") && negb (String.eqb i "")
          then system_prompt +:+ Filesystem.newline +:+ Filesystem.newline
               +:+ "## 当前会话" +:+ Filesystem.newline
               +:+ "渠道：" +:+ c +:+ Filesystem.newline +:+ "聊天ID：" +:+ i
          else system_prompt
      | _, _ => system_prompt
      end in
    let user_content := _build_user_content current_message media (world st) in
    (Ok ([MsgSystem system_prompt] ++ history ++ [MsgUser user_content]), st).

(** [ContextBuilder.add_tool_result] *)
Definition add_tool_result (messages : list ChatMessage)
    (tool_call_id tool_name result : string) : list ChatMessage :=
  messages ++ [MsgTool tool_call_id tool_name result].

(** [ContextBuilder.add_assistant_message] *)
Definition add_assistant_message (messages : list ChatMessage)
    (content : option string) (tool_calls : list ToolCallDict)
    (reasoning_content : option string) : list ChatMessage :=
  messages ++
  [MsgAssistant (default "" content)
     (match tool_calls with [] => None | _ => Some tool_calls end)
     (match reasoning_content with
      | Some r => if String.eqb r "" then None else Some r
      | None => None
      end)].

(** The list comprehension that builds [tool_call_dicts]. *)
Definition tool_call_dicts (response : LLMResponse) : list ToolCallDict :=
  map (fun tc => {| tcd_id := tc_id tc; tcd_name := tc_name tc;
                    tcd_arguments := json_dumps env (tc_arguments tc) |})
      (tool_calls response).

(** [for tool_call in response.tool_calls], in the order offered. *)
Fixpoint run_tool_calls (tools : list (string * Tool))
    (calls : list ToolCallRequest) (messages : list ChatMessage)
    : M W (list ChatMessage) :=
  match calls with
  | [] => ret messages
  | tool_call :: rest =>
      result <- execute tools (tc_name tool_call) (tc_arguments tool_call) ;;
      run_tool_calls tools rest
        (add_tool_result messages (tc_id tool_call) (tc_name tool_call) result)
  end.

(** The variables a tool-calling loop leaves behind. *)
Record LoopExit : Type := {
  iteration : nat;
  final_messages : list ChatMessage;
  final_content : option string
}.

(** The [while iteration < max_iterations] loop that loop.py has twice and
    subagent.py once; the three differ only in how the assistant entry is
    appended.  [remaining] is [max_iterations - iteration], so the loop test
    holds exactly when it is a successor. *)
Fixpoint tool_loop
    (add_assistant : list ChatMessage -> LLMResponse -> list ChatMessage)
    (tools : list (string * Tool)) (model : string)
    (remaining : nat) (iteration : nat) (messages : list ChatMessage)
    : M W LoopExit :=
  match remaining with
  | O => ret {| iteration := iteration; final_messages := messages;
                final_content := None |}
  | S remaining' =>
      let iteration := S iteration in
      response <- chat messages tools model ;;
      if has_tool_calls response then
        let messages := add_assistant messages response in
        messages <- run_tool_calls tools (tool_calls response) messages ;;
        tool_loop add_assistant tools model remaining' iteration messages
      else
        ret {| iteration := iteration; final_messages := messages;
               final_content := content response |}
  end.

End WithEnv.

End Turn.

(** ** agent/subagent.py *)

Module Subagent.
Import Events ProviderBase Conversation Tools Sessions Runtime Turn.

Record SubagentManager : Type := {
  sm_settings : ToolSettings;
  sm_model : string
}.

(** The [origin] dict that [spawn] builds. *)
Record Origin : Type := {
  origin_channel : string;
  origin_chat_id : string
}.

Definition lines (ls : list string) : string :=
  Filesystem.join Filesystem.newline ls.

Definition _build_subagent_prompt (self : SubagentManager) (task : string) : string :=
  lines [
    "# 子代理执行规则"; "";
    "你是由主代理启动的专用子代理，仅负责完成指定任务。"; "";
    "## 核心任务";
    task; "";
    "## 执行规则";
    "1. 聚焦任务 - 仅完成分配的任务，不执行其他无关操作";
    "2. 你的最终响应将被反馈给主代理";
    "3. 不主动发起对话，不承接额外的附带任务";
    "4. 发现和结论需简洁且信息完整"; "";
    "## 可执行操作";
    "- 读取和写入工作目录内的文件";
    "- 执行shell命令";
    "- 搜索网页并获取网页内容";
    "- 全面完成分配的任务"; "";
    "## 禁止操作";
    "- 直接向用户发送消息（无消息发送工具可用）";
    "- 生成其他子代理";
    "- 访问主代理的对话历史"; "";
    "## 工作目录";
    "你的工作目录路径为: " +:+ workspace (sm_settings self); "";
    "任务完成后，请提供清晰的结果总结或操作记录。"
  ].

Definition announce_content (label task result status : string) : string :=
  let status_text := if String.eqb status "ok" then "执行成功" else "执行失败" in
  lines [
    "[子代理'" +:+ label +:+ "' " +:+ status_text +:+ "]"; "";
    "任务描述: " +:+ task; "";
    "执行结果:";
    result; "";
    "请将以上内容用自然语言简洁总结后回复用户（1-2句话即可）。";
    "不要提及「子代理」「任务ID」等技术细节。"
  ].

Section WithEnv.

Context {W : Type}.
Variable env : Env W.

(** [await self.bus.publish_inbound(msg)] *)
Definition publish_inbound (msg : InboundMessage) : M W unit :=
  fun st => (Ok tt, set_bus (Bus.publish_inbound msg (bus st)) st).

Definition _announce_result (task_id label task result : string)
    (origin : Origin) (status : string) : M W unit :=
  let msg := {| in_channel := "system";
                in_sender_id := "subagent";
                in_chat_id := origin_channel origin +:+ ":" +:+ origin_chat_id origin;
                in_content := announce_content label task result status;
                in_media := [];
                in_session_key_override := None |} in
  publish_inbound msg.

(** The assistant entry as subagent.py appends it. *)
Definition append_assistant (messages : list ChatMessage) (response : LLMResponse)
    : list ChatMessage :=
  messages ++ [MsgAssistant (default "" (content response))
                            (Some (tool_call_dicts env response)) None].

(** The [try] block of [_run_subagent] up to the final result. *)
Definition subagent_turn (self : SubagentManager) (task : string) : M W string :=
  let tools := subagent_tools (sm_settings self) in
  let system_prompt := _build_subagent_prompt self task in
  let messages := [MsgSystem system_prompt; MsgUser (TextContent task)] in
  let max_iterations := 15%nat in
  exit <- tool_loop env append_assistant tools (sm_model self)
                    max_iterations 0 messages ;;
  ret (match final_content exit with
       | None => "任务已执行完毕，但未生成最终响应内容。"
       | Some final_result => final_result
       end).

Definition _run_subagent (self : SubagentManager) (task_id task label : string)
    (origin : Origin) : M W unit :=
  fun st =>
    match (final_result <- subagent_turn self task ;;
           _announce_result task_id label task final_result origin "ok") st with
    | (Ok done, st') => (Ok done, st')
    | (Raise e, st') =>
        let error_msg := "错误信息: " +:+ exn_str e in
        _announce_result task_id label task error_msg origin "error" st'
    end.

End WithEnv.

End Subagent.

(** ** agent/loop.py *)

Module AgentLoop.
Import Events ProviderBase Conversation Tools Sessions Runtime Turn.

Record AgentLoop : Type := {
  settings : ToolSettings;
  model : string;
  max_iterations : Z;
  cron_service : bool;
  tools : list (string * Tool)
}.

(** [__init__]: the tools are the default ones, and the subagent manager
    gets the loop's own settings. *)
Definition new (settings : ToolSettings) (model : string) (max_iterations : Z)
    (cron_service : bool) : AgentLoop :=
  {| settings := settings; model := model; max_iterations := max_iterations;
     cron_service := cron_service;
     tools := _register_default_tools settings cron_service |}.

Definition default_max_iterations : Z := 20.

Definition subagents (self : AgentLoop) : Subagent.SubagentManager :=
  {| Subagent.sm_settings := settings self; Subagent.sm_model := model self |}.

(** The origin of a system message: ["channel:chat_id"], split once. *)
Definition parse_origin (chat_id : string) : string * string :=
  if PyStr.contains ":" chat_id then
    let parts := PyStr.split1 ":" chat_id in
    (nth 0 parts "", nth 1 parts "")
  else ("cli", chat_id).

Section WithEnv.

Context {W : Type}.
Variable env : Env W.

Definition get_or_create (k : string) : M W Session :=
  fun st =>
    let (s, store) := Sessions.get_or_create k (sessions st) in
    (Ok s, set_sessions store st).

Definition save (s : Session) : M W unit :=
  fun st => (Ok tt, set_sessions (Sessions.save s (sessions st)) st).

Definition publish_outbound (msg : OutboundMessage) : M W unit :=
  fun st => (Ok tt, set_bus (Bus.publish_outbound msg (bus st)) st).

(** The three [set_context] calls that precede a turn. *)
Definition update_tool_contexts (self : AgentLoop) (channel chat_id : string)
    : M W unit :=
  fun st =>
    let c := contexts st in
    let message := match get "message" (tools self) with
                   | Some MessageTool => Some (channel, chat_id)
                   | _ => message_context c
                   end in
    let spawn := match get "spawn" (tools self) with
                 | Some SpawnTool => Some (channel, chat_id)
                 | _ => spawn_context c
                 end in
    let cron := match get "cron" (tools self) with
                | Some CronTool => Some (channel, chat_id)
                | _ => cron_context c
                end in
    (Ok tt, set_contexts {| message_context := message; spawn_context := spawn;
                            cron_context := cron |} st).

Definition add_assistant (messages : list ChatMessage) (response : LLMResponse)
    : list ChatMessage :=
  add_assistant_message messages (content response)
    (tool_call_dicts env response) (reasoning_content response).

(** The loop of a turn of the agent: [iteration] starts at 0 and the test
    is [iteration < self.max_iterations]. *)
Definition agent_loop (self : AgentLoop) (messages : list ChatMessage)
    : M W LoopExit :=
  tool_loop env add_assistant (tools self) (model self)
            (Z.to_nat (max_iterations self)) 0 messages.

Definition fallback_content : string := "我已经完成处理但没有响应可以提供。".

Definition system_fallback_content : string := "Background task completed.".

Definition _process_system_message (self : AgentLoop) (msg : InboundMessage)
    : M W (option OutboundMessage) :=
  let (origin_channel, origin_chat_id) := parse_origin (in_chat_id msg) in
  let session_key := origin_channel +:+ ":" +:+ origin_chat_id in
  session <- get_or_create session_key ;;
  update_tool_contexts self origin_channel origin_chat_id ;;;
  messages <- build_messages env (get_history session) (in_content msg) None
                (Some origin_channel) (Some origin_chat_id) ;;
  exit <- agent_loop self messages ;;
  let final_content := match final_content exit with
                       | None => system_fallback_content
                       | Some c => c
                       end in
  let session :=
    add_message "user" ("[System: " +:+ in_sender_id msg +:+ "] " +:+ in_content msg)
                session in
  let session := add_message "assistant" final_content session in
  save session ;;;
  ret (Some {| out_channel := origin_channel; out_chat_id := origin_chat_id;
               out_content := final_content |}).

Definition _process_message (self : AgentLoop) (msg : InboundMessage)
    : M W (option OutboundMessage) :=
  if String.eqb (in_channel msg) "system" then _process_system_message self msg
  else
    session <- get_or_create (session_key msg) ;;
    update_tool_contexts self (in_channel msg) (in_chat_id msg) ;;;
    messages <- build_messages env (get_history session) (in_content msg)
                  (match in_media msg with [] => None | m => Some m end)
                  (Some (in_channel msg)) (Some (in_chat_id msg)) ;;
    exit <- agent_loop self messages ;;
    let final_content := match final_content exit with
                         | None => fallback_content
                         | Some c => c
                         end in
    let session := add_message "user" (in_content msg) session in
    let session := add_message "assistant" final_content session in
    save session ;;;
    ret (Some {| out_channel := in_channel msg; out_chat_id := in_chat_id msg;
                 out_content := final_content |}).

(** One pass through the body of [while self._running] in [run]: an empty
    inbound queue makes [wait_for] time out. *)
Definition run_step (self : AgentLoop) (st : State W) : State W :=
  match Bus.inbound (bus st) with
  | [] => st
  | msg :: rest =>
      let b := bus st in
      let st := set_bus {| Bus.inbound := rest; Bus.outbound := Bus.outbound b;
                           Bus._outbound_subscribers := Bus._outbound_subscribers b;
                           Bus._running := Bus._running b |} st in
      match _process_message self msg st with
      | (Ok (Some response), st') => snd (publish_outbound response st')
      | (Ok None, st') => st'
      | (Raise e, st') =>
          snd (publish_outbound
                 {| out_channel := in_channel msg; out_chat_id := in_chat_id msg;
                    out_content := "抱歉，我遇到了一个错误：" +:+ exn_str e |} st')
      end
  end.

End WithEnv.

End AgentLoop.

(** ** The registry's execution of a tool *)

Module Registry.
Import ToolBase.

Section WithWorld.

Context {W : Type}.
Variable fmt : Json -> string.

(** A tool behind the interface {name, description, parameters, execute};
    its [execute] acts on the world and answers or raises. *)
Record ToolImpl : Type := {
  impl_name : string;
  impl_description : string;
  impl_parameters : Schema;
  impl_execute : Json -> W -> Result string * W
}.

(** Modelled from the spec: [ToolRegistry.execute] of
    agent/tools/registry.py, which is not among the sources.  "Parameter
    validation against the schema happens before execution and yields a list
    of human-readable violation strings"; a violating argument "is rejected
    with a validation message before execute runs, and execution does not
    occur"; failures are "returned as text, never raised into the Turn
    Engine".  The spec does not fix the wording of the texts. *)
Definition execute (tool : ToolImpl) (params : Json) (w : W) : string * W :=
  match validate_params fmt (impl_parameters tool) params with
  | Ok [] =>
      match impl_execute tool params w with
      | (Ok result, w') => (result, w')
      | (Raise e, w') =>
          ("Error executing " +:+ impl_name tool +:+ ": " +:+ exn_str e, w')
      end
  | Ok errors =>
      ("Error: Invalid parameters for tool '" +:+ impl_name tool +:+ "': "
       +:+ Filesystem.join "; " errors, w)
  | Raise e =>
      ("Error executing " +:+ impl_name tool +:+ ": " +:+ exn_str e, w)
  end.

End WithWorld.

Arguments ToolImpl W : clear implicits.

End Registry.

(** ** What is observed of a turn *)

Module Observe.
Import Events ProviderBase Conversation Tools Sessions Runtime.

Definition is_llm_call (ev : Event) : bool :=
  match ev with LlmCall _ _ => true | ToolRun _ _ _ => false end.

(** The number of calls of the provider among the events. *)
Definition llm_calls (evs : list Event) : nat :=
  length (filter (fun ev => is_llm_call ev = true) evs).

(** The provider answered with tool calls. *)
Definition offers_tools (ev : Event) : bool :=
  match ev with
  | LlmCall _ (Ok r) => has_tool_calls r
  | LlmCall _ (Raise _) => false
  | ToolRun _ _ _ => true
  end.

(** The provider answered without tool calls and with a content that is
    not null. *)
Definition plain_answer (ev : Event) : option string :=
  match ev with
  | LlmCall _ (Ok r) => if has_tool_calls r then None else content r
  | _ => None
  end.

(** The content of the first plain answer among the events. *)
Fixpoint first_plain_answer (evs : list Event) : option string :=
  match evs with
  | [] => None
  | ev :: rest =>
      match plain_answer ev with
      | Some c => Some c
      | None => first_plain_answer rest
      end
  end.

(** The provider and the registry answer every call. *)
Definition never_raises {W : Type} (env : Env W) : Prop :=
  (forall messages tools model w,
      exists r w', provider_chat env messages tools model w = (Ok r, w'))
  /\ (forall registry c tool_name arguments w,
      exists r w', tools_execute env registry c tool_name arguments w = (Ok r, w')).

(** Every session is stored under its own key. *)
Definition store_ok (store : gmap string Session) : Prop :=
  forall k s, store !! k = Some s -> key s = k.

(** The history stored under a key, empty when there is none. *)
Definition history_of (store : gmap string Session) (k : string) : list Entry :=
  match store !! k with Some s => history s | None => [] end.

(** The session a message is processed in: its own, or the origin's for a
    system message. *)
Definition target_key (msg : InboundMessage) : string :=
  if String.eqb (in_channel msg) "system"
  then let (c, i) := AgentLoop.parse_origin (in_chat_id msg) in c +:+ ":" +:+ i
  else session_key msg.

(** The body that [_process_message] and [_process_system_message] have
    in common, the two differing in the session, the addressing, the media,
    the text kept for the user entry and the fallback text. *)
Definition turn_body {W : Type} (env : Env W) (self : AgentLoop.AgentLoop)
    (session_key channel chat_id : string) (media : option (list string))
    (content user_text fallback : string) : M W (option OutboundMessage) :=
  session <- AgentLoop.get_or_create session_key ;;
  AgentLoop.update_tool_contexts self channel chat_id ;;;
  messages <- Turn.build_messages env (get_history session) content media
                (Some channel) (Some chat_id) ;;
  exit <- AgentLoop.agent_loop env self messages ;;
  let final_content := match Turn.final_content exit with
                       | None => fallback
                       | Some c => c
                       end in
  let session := add_message "user" user_text session in
  let session := add_message "assistant" final_content session in
  AgentLoop.save session ;;;
  ret (Some {| out_channel := channel; out_chat_id := chat_id;
               out_content := final_content |}).

(** A step that leaves the bus, the sessions and the tool contexts as they
    were. *)
Definition same_frame {W : Type} (st st' : State W) : Prop :=
  bus st' = bus st /\ sessions st' = sessions st /\ contexts st' = contexts st.

(** Containment in a directory, as [Path.is_relative_to] tells it: the
    directory itself or a path below it. *)
Definition is_within (dir p : string) : bool :=
  String.eqb p dir || PyStr.startswith p (dir +:+ "/").

(** The state [st'] is reached from [st] by processing the messages one
    after the other, each to completion. *)
Inductive processed {W : Type} (env : Env W) (self : AgentLoop.AgentLoop)
    : list InboundMessage -> State W -> State W -> Prop :=
  | processed_nil st : processed env self [] st st
  | processed_cons msg rest st out st1 st' :
      AgentLoop._process_message env self msg st = (Ok out, st1) ->
      processed env self rest st1 st' ->
      processed env self (msg :: rest) st st'.

End Observe.

(** ** Concrete runs *)

Module Examples.
Import Events ProviderBase Conversation Tools Sessions Runtime.

(** A provider that answers every call with the same content and no tool
    call, and tools that answer with an empty text. *)
Definition plain_env (answer : option string) : Env unit :=
  {| provider_chat := fun _ _ _ w =>
       (Ok {| content := answer; tool_calls := []; finish_reason := "stop";
              usage := []; reasoning_content := None |}, w);
     tools_execute := fun _ _ _ _ w => (Ok "", w);
     json_dumps := fun _ => "{}";
     build_system_prompt := fun _ => "You are nanobot.";
     encode_images := fun _ _ => [] |}.

(** A provider whose every call raises. *)
Definition failing_env : Env unit :=
  {| provider_chat := fun _ _ _ w => (Raise (OtherError "connection refused"), w);
     tools_execute := fun _ _ _ _ w => (Ok "", w);
     json_dumps := fun _ => "{}";
     build_system_prompt := fun _ => "You are nanobot.";
     encode_images := fun _ _ => [] |}.

Definition settings : ToolSettings :=
  {| workspace := "/ws"; brave_api_key := None; exec_timeout := 60;
     restrict_to_workspace := true |}.

Definition agent : AgentLoop.AgentLoop :=
  AgentLoop.new settings "anthropic/claude-opus-4-5"
                AgentLoop.default_max_iterations false.

Definition start : State unit :=
  {| bus := Bus.init; sessions := ∅;
     contexts := {| message_context := None; spawn_context := None;
                    cron_context := None |};
     world := tt; log := [] |}.

(** A plain rendering of the values that violation texts quote. *)
Definition show (j : Json) : string :=
  match j with
  | JInt z => NilZero.string_of_int (Z.to_int z)
  | JStr s => s
  | _ => "..."
  end.

(** The schema [{"type": t}]. *)
Definition typed (t : string) : ToolBase.Schema :=
  ToolBase.with_type t ToolBase.empty_schema.

(** [{"type": "integer", "minimum": lo, "maximum": hi}] *)
Definition bounded_integer (lo hi : Z) : ToolBase.Schema :=
  ToolBase.MkSchema (Some "integer") None (Some (ToolBase.NInt lo))
    (Some (ToolBase.NInt hi)) None None None None None.

(** [{"type": "string", "minLength": lo, "maxLength": hi}] *)
Definition bounded_string (lo hi : Z) : ToolBase.Schema :=
  ToolBase.MkSchema (Some "string") None None None (Some lo) (Some hi)
    None None None.

(** [{"type": "string", "enum": values}] *)
Definition one_of (values : list Json) : ToolBase.Schema :=
  ToolBase.MkSchema (Some "string") (Some values) None None None None
    None None None.

(** [{"type": "object", "properties": props, "required": required}] *)
Definition object_of (props : list (string * ToolBase.Schema))
    (required : list string) : ToolBase.Schema :=
  ToolBase.MkSchema (Some "object") None None None None None
    (Some props) (Some required) None.

(** [{"type": "array", "items": items}] *)
Definition array_of (items : ToolBase.Schema) : ToolBase.Schema :=
  ToolBase.MkSchema (Some "array") None None None None None None None
    (Some items).

(** [{"properties": {"n": {"maximum": 3}}}]: a maximum on a property that
    declares no type. *)
Definition untyped_maximum : ToolBase.Schema :=
  ToolBase.MkSchema None None None None None None
    (Some [("n", ToolBase.MkSchema None None None (Some (ToolBase.NInt 3))
                   None None None None None)])
    None None.

Definition inbound_msg (channel sender chat_id content : string) : InboundMessage :=
  {| in_channel := channel; in_sender_id := sender; in_chat_id := chat_id;
     in_content := content; in_media := []; in_session_key_override := None |}.

End Examples.

(** ** The rest of agent/loop.py and what is observed of the bus *)

Module Direct.
Import Events ProviderBase Conversation Tools Sessions Runtime Turn.

Section WithEnv.

Context {W : Type}.
Variable env : Env W.

(** [AgentLoop.process_direct]: the message is built from [channel] and
    [chat_id]; [session_key] is a parameter that the body does not read. *)
Definition process_direct (self : AgentLoop.AgentLoop) (content : string)
    (session_key channel chat_id : string) : M W string :=
  let msg := {| in_channel := channel; in_sender_id := "user";
                in_chat_id := chat_id; in_content := content;
                in_media := []; in_session_key_override := None |} in
  response <- AgentLoop._process_message env self msg ;;
  ret (match response with
       | Some r => out_content r
       | None => ""
       end).

End WithEnv.

End Direct.

Module Shape.
Import Events ProviderBase Conversation Tools Sessions Runtime Turn.

(** The names of the callbacks called, in the order of the calls. *)
Fixpoint invoked (evs : list Bus.DispatchEvent) : list (string * OutboundMessage) :=
  match evs with
  | [] => []
  | Bus.Invoked n m :: rest => (n, m) :: invoked rest
  | Bus.ErrorLogged _ _ :: rest => invoked rest
  end.

(** The errors logged, in the order of the logging. *)
Fixpoint logged (evs : list Bus.DispatchEvent) : list (string * Exn) :=
  match evs with
  | [] => []
  | Bus.Invoked _ _ :: rest => logged rest
  | Bus.ErrorLogged c e :: rest => (c, e) :: logged rest
  end.

(** The subscribers a message is delivered to. *)
Definition subscribers_of (b : Bus.MessageBus) (msg : OutboundMessage)
    : list Bus.Callback :=
  default [] (Bus._outbound_subscribers b !! out_channel msg).

(** The tool entries of a round: one per call, with the id and the name of
    the call and the result of its run. *)
Fixpoint tool_entries (calls : list ToolCallRequest) (results : list string)
    : list ChatMessage :=
  match calls, results with
  | tc :: calls', r :: results' =>
      MsgTool (tc_id tc) (tc_name tc) r :: tool_entries calls' results'
  | _, _ => []
  end.

(** The tool events of a round: one per answer, in the order of the
    calls. *)
Fixpoint tool_events (calls : list ToolCallRequest) (answers : list (Result string))
    : list Event :=
  match calls, answers with
  | tc :: calls', a :: answers' =>
      ToolRun (tc_name tc) (tc_arguments tc) a :: tool_events calls' answers'
  | _, _ => []
  end.

(** The entries that the rounds of a turn add to the message list: for
    each round the assistant entry, then the tool entries. *)
Fixpoint round_entries (entry : LLMResponse -> ChatMessage)
    (rounds : list (LLMResponse * list string)) : list ChatMessage :=
  match rounds with
  | [] => []
  | (response, results) :: rest =>
      entry response :: tool_entries (tool_calls response) results
      ++ round_entries entry rest
  end.

(** A round is complete: the response offered tool calls and each has its
    result. *)
Definition complete_round (round : LLMResponse * list string) : Prop :=
  has_tool_calls (fst round) = true
  /\ length (snd round) = length (tool_calls (fst round)).

(** The assistant entry that loop.py appends for a response, through
    [add_assistant_message]. *)
Definition agent_entry {W : Type} (env : Env W) (response : LLMResponse)
    : ChatMessage :=
  MsgAssistant (default "" (content response))
    (match tool_call_dicts env response with
     | [] => None
     | dicts => Some dicts
     end)
    (match reasoning_content response with
     | Some r => if String.eqb r "" then None else Some r
     | None => None
     end).

(** The assistant entry that subagent.py appends for a response. *)
Definition subagent_entry {W : Type} (env : Env W) (response : LLMResponse)
    : ChatMessage :=
  MsgAssistant (default "" (content response))
    (Some (tool_call_dicts env response)) None.

(** The channel and the chat a turn for a message is addressed to: those of
    the message, or the origin that a system message names. *)
Definition address_of (msg : InboundMessage) : string * string :=
  if String.eqb (in_channel msg) "system"
  then AgentLoop.parse_origin (in_chat_id msg)
  else (in_channel msg, in_chat_id msg).

(** The message that a subagent publishes for an origin. *)
Definition announcement (origin : Subagent.Origin) (content : string)
    : InboundMessage :=
  {| in_channel := "system"; in_sender_id := "subagent";
     in_chat_id := Subagent.origin_channel origin +:+ ":"
                   +:+ Subagent.origin_chat_id origin;
     in_content := content; in_media := [];
     in_session_key_override := None |}.

(** The apology that [run] publishes when processing a message raised. *)
Definition apology (msg : InboundMessage) (e : Exn) : OutboundMessage :=
  {| out_channel := in_channel msg; out_chat_id := in_chat_id msg;
     out_content := "抱歉，我遇到了一个错误：" +:+ exn_str e |}.

(** The violations of the items of an array, each under its index. *)
Fixpoint items_errors (check : nat -> Json -> list string) (i : nat)
    (items : list Json) : list string :=
  match items with
  | [] => []
  | x :: rest => check i x ++ items_errors check (S i) rest
  end.

End Shape.

(** ** A run with a tool call *)

Module Scenario.
Import Events ProviderBase Conversation Tools Sessions Runtime.

(** A provider that offers one call of read_file at its first call and
    answers "done" afterwards, the world counting its calls; and tools that
    answer with the name of the tool. *)
Definition tool_env : Env nat :=
  {| provider_chat := fun _ _ _ n =>
       (Ok (match n with
            | O => {| content := None;
                      tool_calls :=
                        [{| tc_id := "call_1"; tc_name := "read_file";
                            tc_arguments := JObj [("path", JStr "/ws/a")] |}];
                      finish_reason := "tool_calls"; usage := [];
                      reasoning_content := None |}
            | S _ => {| content := Some "done"; tool_calls := [];
                        finish_reason := "stop"; usage := [];
                        reasoning_content := None |}
            end), S n);
     tools_execute := fun _ _ tool_name _ n => (Ok tool_name, n);
     json_dumps := fun _ => "{}";
     build_system_prompt := fun _ => "You are nanobot.";
     encode_images := fun _ _ => [] |}.

Definition start : State nat :=
  {| bus := Bus.init; sessions := ∅;
     contexts := {| message_context := None; spawn_context := None;
                    cron_context := None |};
     world := 0%nat; log := [] |}.

End Scenario.

(** * Properties *)

(** ** Strings *)

Section StringFacts.

Lemma append_cons (c : ascii) (a b : string) :
  String c a +:+ b = String c (a +:+ b).
Proof. reflexivity. Qed.

Lemma append_nil (b : string) : "" +:+ b = b.
Proof. reflexivity. Qed.

Lemma startswith_app (p t : string) : PyStr.startswith (p +:+ t) p = true.
Proof.
  induction p as [|c p IH]; simpl; [reflexivity|].
  rewrite Ascii.eqb_refl. exact IH.
Qed.

Lemma startswith_split (s p : string) :
  PyStr.startswith s p = true -> exists t, s = p +:+ t.
Proof.
  revert s. induction p as [|c p IH]; intros s H; simpl in H.
  - exists s. reflexivity.
  - destruct s as [|d s]; [discriminate|].
    apply andb_prop in H. destruct H as [Hc Hs].
    apply Ascii.eqb_eq in Hc. subst d.
    destruct (IH _ Hs) as [t ->]. exists t. reflexivity.
Qed.

Lemma take_app (a b : string) : PyStr.take (String.length a) (a +:+ b) = a.
Proof. induction a as [|c a IH]; simpl; [reflexivity | now rewrite IH]. Qed.

Lemma drop_app (a b : string) : PyStr.drop (String.length a) (a +:+ b) = b.
Proof. induction a as [|c a IH]; simpl; [reflexivity | exact IH]. Qed.

Lemma contains_cons_false (sub : string) (c : ascii) (s : string) :
  PyStr.contains sub (String c s) = false ->
  PyStr.startswith (String c s) sub = false /\ PyStr.contains sub s = false.
Proof.
  unfold PyStr.contains. simpl.
  destruct (PyStr.startswith (String c s) sub) eqn:E.
  - destruct sub; discriminate.
  - destruct (PyStr.find sub s); simpl; [discriminate | auto].
Qed.

(** [find] gives the first position at which the text is matched. *)
Lemma find_first (sub a b : string) :
  (forall i, (i < String.length a)%nat ->
             PyStr.startswith (PyStr.drop i (a +:+ sub +:+ b)) sub = false) ->
  PyStr.find sub (a +:+ sub +:+ b) = Some (String.length a).
Proof.
  induction a as [|c a IH]; intros H.
  - simpl. destruct (sub +:+ b) eqn:E; simpl.
    + destruct sub; [reflexivity | discriminate].
    + rewrite <- E, startswith_app. reflexivity.
  - assert (H0 := H 0%nat ltac:(simpl; lia)).
    rewrite append_cons in H0 |- *. cbn [PyStr.drop] in H0.
    cbn [PyStr.find String.length]. rewrite H0.
    rewrite IH; [reflexivity|].
    intros i Hi. specialize (H (S i)). rewrite append_cons in H.
    apply H. simpl. lia.
Qed.



Lemma drop_drop (n m : nat) (s : string) :
  PyStr.drop m (PyStr.drop n s) = PyStr.drop (n + m) s.
Proof.
  revert s. induction n as [|n IH]; intros s; simpl; [reflexivity|].
  destruct s; [destruct m; reflexivity | apply IH].
Qed.


End StringFacts.

(** ** The tool-calling loop *)

Section TurnFacts.
Import Events ProviderBase Conversation Tools Sessions Runtime Turn Observe.

Context {W : Type} (env : Env W).

Lemma llm_calls_app (a b : list Event) :
  llm_calls (a ++ b) = (llm_calls a + llm_calls b)%nat.
Proof. unfold llm_calls. now rewrite filter_app, length_app. Qed.

Lemma llm_calls_nil : llm_calls [] = 0%nat.
Proof. reflexivity. Qed.

Lemma llm_calls_call (m : list ChatMessage) (r : Result LLMResponse)
    (evs : list Event) :
  llm_calls (LlmCall m r :: evs) = S (llm_calls evs).
Proof. unfold llm_calls. now rewrite filter_cons_True. Qed.

Lemma llm_calls_tool (n : string) (a : Json) (r : Result string)
    (evs : list Event) :
  llm_calls (ToolRun n a r :: evs) = llm_calls evs.
Proof. unfold llm_calls. now rewrite filter_cons_False. Qed.

Lemma first_plain_answer_app (a b : list Event) :
  first_plain_answer (a ++ b) =
  match first_plain_answer a with
  | Some c => Some c
  | None => first_plain_answer b
  end.
Proof.
  induction a as [|ev a IH]; simpl; [reflexivity|].
  destruct (plain_answer ev); [reflexivity | exact IH].
Qed.

Lemma tool_events_quiet (evs : list Event) :
  Forall (fun ev => is_llm_call ev = false) evs ->
  llm_calls evs = 0%nat /\ first_plain_answer evs = None.
Proof.
  induction 1 as [|ev evs Hev _ [IH1 IH2]]; [split; reflexivity|].
  destruct ev; [discriminate|]. split.
  - now rewrite llm_calls_tool.
  - simpl. exact IH2.
Qed.

Lemma same_frame_refl (st : State W) : same_frame st st.
Proof. repeat split. Qed.

Lemma same_frame_trans (a b c : State W) :
  same_frame a b -> same_frame b c -> same_frame a c.
Proof.
  intros (H1 & H2 & H3) (H4 & H5 & H6). repeat split; congruence.
Qed.

Lemma same_frame_set_world (st : State W) (w : W) (evs : list Event) :
  same_frame st (set_world w evs st).
Proof. repeat split. Qed.

(** Running the offered tools only adds tool events. *)
Lemma run_tool_calls_spec (tools : list (string * Tool))
    (calls : list ToolCallRequest) :
  forall (messages : list ChatMessage) (st : State W),
  exists evs,
    log (snd (run_tool_calls env tools calls messages st)) = log st ++ evs
    /\ same_frame st (snd (run_tool_calls env tools calls messages st))
    /\ Forall (fun ev => is_llm_call ev = false) evs
    /\ (never_raises env ->
        exists m, fst (run_tool_calls env tools calls messages st) = Ok m).
Proof.
  induction calls as [|tc calls IH]; intros messages st.
  - exists []. simpl. rewrite app_nil_r. repeat split; eauto.
  - cbn [run_tool_calls]. unfold bind, execute.
    destruct (tools_execute env tools (contexts st) (tc_name tc)
                (tc_arguments tc) (world st)) as [[result|e] w] eqn:Hx.
    + set (st1 := set_world w _ st).
      destruct (IH (add_tool_result messages (tc_id tc) (tc_name tc) result) st1)
        as (evs & Hlog & Hframe & Hquiet & Hok).
      exists (ToolRun (tc_name tc) (tc_arguments tc) (Ok result) :: evs).
      split; [|split; [|split]].
      * rewrite Hlog. unfold st1. simpl. now rewrite <- app_assoc.
      * eapply same_frame_trans; [apply same_frame_set_world | exact Hframe].
      * constructor; [reflexivity | exact Hquiet].
      * exact Hok.
    + exists [ToolRun (tc_name tc) (tc_arguments tc) (Raise e)].
      simpl. split; [reflexivity|]. split; [apply same_frame_set_world|].
      split; [repeat constructor|].
      intros [_ Hnr].
      destruct (Hnr tools (contexts st) (tc_name tc) (tc_arguments tc) (world st))
        as (r & w' & Hr).
      congruence.
Qed.

(** One pass through the body of the loop. *)
Lemma tool_loop_step
    (add : list ChatMessage -> LLMResponse -> list ChatMessage)
    (tools : list (string * Tool)) (model : string) (remaining it : nat)
    (messages : list ChatMessage) (st : State W) :
  tool_loop env add tools model (S remaining) it messages st =
  match provider_chat env messages (get_definitions tools) model (world st) with
  | (Raise e, w) => (Raise e, set_world w [LlmCall messages (Raise e)] st)
  | (Ok response, w) =>
      let st1 := set_world w [LlmCall messages (Ok response)] st in
      if has_tool_calls response then
        match run_tool_calls env tools (tool_calls response)
                (add messages response) st1 with
        | (Ok messages', st2) =>
            tool_loop env add tools model remaining (S it) messages' st2
        | (Raise e, st2) => (Raise e, st2)
        end
      else (Ok {| iteration := S it; final_messages := messages;
                  final_content := content response |}, st1)
  end.
Proof.
  cbn [tool_loop]. unfold bind, chat.
  destruct (provider_chat env messages (get_definitions tools) model (world st))
    as [[response|e] w]; [|reflexivity].
  cbv zeta. destruct (has_tool_calls response); reflexivity.
Qed.

(** What the loop leaves behind, from any point of its run. *)
Lemma tool_loop_spec
    (add : list ChatMessage -> LLMResponse -> list ChatMessage)
    (tools : list (string * Tool)) (model : string) (remaining : nat) :
  forall (it : nat) (messages : list ChatMessage) (st : State W),
  exists evs,
    log (snd (tool_loop env add tools model remaining it messages st))
      = log st ++ evs
    /\ same_frame st (snd (tool_loop env add tools model remaining it messages st))
    /\ (llm_calls evs <= remaining)%nat
    /\ (forall exit,
          fst (tool_loop env add tools model remaining it messages st) = Ok exit ->
          iteration exit = (it + llm_calls evs)%nat
          /\ final_content exit = first_plain_answer evs
          /\ (final_content exit = None ->
              llm_calls evs = remaining
              \/ exists pre msgs r,
                   evs = pre ++ [LlmCall msgs (Ok r)]
                   /\ has_tool_calls r = false /\ content r = None))
    /\ (never_raises env ->
        exists exit,
          fst (tool_loop env add tools model remaining it messages st) = Ok exit).
Proof.
  induction remaining as [|remaining IH]; intros it messages st.
  - exists []. simpl. rewrite app_nil_r.
    split; [reflexivity|]. split; [apply same_frame_refl|].
    rewrite llm_calls_nil. split; [lia|].
    split; [|eauto].
    intros exit [= <-]. simpl. rewrite Nat.add_0_r. auto.
  - rewrite tool_loop_step.
    destruct (provider_chat env messages (get_definitions tools) model (world st))
      as [[response|e] w] eqn:Hc.
    2:{ exists [LlmCall messages (Raise e)]. simpl.
        split; [reflexivity|]. split; [apply same_frame_set_world|].
        split; [rewrite llm_calls_call, llm_calls_nil; lia|].
        split; [discriminate|].
        intros [Hnr _].
        destruct (Hnr messages (get_definitions tools) model (world st))
          as (r & w' & Hr).
        congruence. }
    cbv zeta. set (st1 := set_world w [LlmCall messages (Ok response)] st).
    destruct (has_tool_calls response) eqn:Htc.
    + destruct (run_tool_calls_spec tools (tool_calls response)
                  (add messages response) st1)
        as (evs_t & Hlog_t & Hframe_t & Hquiet & Hok_t).
      destruct (run_tool_calls env tools (tool_calls response)
                  (add messages response) st1) as [[messages'|e] st2] eqn:Hrun.
      * simpl in Hlog_t, Hframe_t.
        destruct (IH (S it) messages' st2) as (evs & Hlog & Hframe & Hle & Hexit & Hok).
        destruct (tool_events_quiet _ Hquiet) as [Hq1 Hq2].
        exists (LlmCall messages (Ok response) :: evs_t ++ evs).
        assert (Hcalls :
          llm_calls (LlmCall messages (Ok response) :: evs_t ++ evs)
          = S (llm_calls evs)).
        { now rewrite llm_calls_call, llm_calls_app, Hq1. }
        split; [|split; [|split; [|split]]].
        -- rewrite Hlog, Hlog_t. unfold st1. simpl.
           rewrite <- !app_assoc. reflexivity.
        -- eapply same_frame_trans; [apply same_frame_set_world|].
           eapply same_frame_trans; [exact Hframe_t | exact Hframe].
        -- rewrite Hcalls. lia.
        -- intros exit Hx. destruct (Hexit exit Hx) as (Hi & Hf & Hn).
           split; [rewrite Hcalls, Hi; lia|]. split.
           ++ rewrite Hf. simpl. rewrite Htc.
              rewrite first_plain_answer_app, Hq2. reflexivity.
           ++ intros Hnone. destruct (Hn Hnone) as [Hm | (pre & msgs & r & -> & Hr1 & Hr2)].
              ** left. rewrite Hcalls, Hm. reflexivity.
              ** right. exists (LlmCall messages (Ok response) :: evs_t ++ pre), msgs, r.
                 split; [|auto]. simpl. now rewrite <- app_assoc.
        -- exact Hok.
      * simpl in Hlog_t, Hframe_t, Hok_t. simpl.
        exists (LlmCall messages (Ok response) :: evs_t).
        destruct (tool_events_quiet _ Hquiet) as [Hq1 Hq2].
        split; [|split; [|split; [|split]]].
        -- rewrite Hlog_t. unfold st1. simpl. now rewrite <- app_assoc.
        -- eapply same_frame_trans; [apply same_frame_set_world | exact Hframe_t].
        -- rewrite llm_calls_call, Hq1. lia.
        -- discriminate.
        -- intros Hnr. destruct (Hok_t Hnr) as [m Hm]. discriminate.
    + exists [LlmCall messages (Ok response)]. simpl.
      split; [reflexivity|]. split; [apply same_frame_set_world|].
      rewrite llm_calls_call, llm_calls_nil.
      split; [lia|].
      split; [|eauto].
      intros exit [= <-]. simpl. rewrite Htc.
      split; [lia|].
      split; [destruct (content response); reflexivity|].
      intros Hnone. right. exists [], messages, response. auto.
Qed.

End TurnFacts.

(** ** A turn of the agent *)

Section AgentFacts.
Import Events ProviderBase Conversation Tools Sessions Runtime Turn Observe.
Import AgentLoop.

Context {W : Type} (env : Env W) (self : AgentLoop).

Lemma process_message_body (msg : InboundMessage) :
  String.eqb (in_channel msg) "system" = false ->
  _process_message env self msg =
  turn_body env self (session_key msg) (in_channel msg) (in_chat_id msg)
    (match in_media msg with [] => None | m => Some m end)
    (in_content msg) (in_content msg) fallback_content.
Proof. intros H. unfold _process_message. rewrite H. reflexivity. Qed.

Lemma process_system_message_body (msg : InboundMessage) :
  _process_system_message env self msg =
  turn_body env self
    (fst (parse_origin (in_chat_id msg)) +:+ ":" +:+ snd (parse_origin (in_chat_id msg)))
    (fst (parse_origin (in_chat_id msg))) (snd (parse_origin (in_chat_id msg)))
    None (in_content msg)
    ("[System: " +:+ in_sender_id msg +:+ "] " +:+ in_content msg)
    system_fallback_content.
Proof.
  unfold _process_system_message.
  destruct (parse_origin (in_chat_id msg)) as [c i]. reflexivity.
Qed.

Lemma agent_loop_spec (messages : list ChatMessage) (st : State W) :
  exists evs,
    log (snd (agent_loop env self messages st)) = log st ++ evs
    /\ same_frame st (snd (agent_loop env self messages st))
    /\ (llm_calls evs <= Z.to_nat (max_iterations self))%nat
    /\ (forall exit,
          fst (agent_loop env self messages st) = Ok exit ->
          iteration exit = llm_calls evs
          /\ final_content exit = first_plain_answer evs
          /\ (final_content exit = None ->
              llm_calls evs = Z.to_nat (max_iterations self)
              \/ exists pre msgs r,
                   evs = pre ++ [LlmCall msgs (Ok r)]
                   /\ has_tool_calls r = false /\ content r = None))
    /\ (never_raises env ->
        exists exit, fst (agent_loop env self messages st) = Ok exit).
Proof. apply tool_loop_spec. Qed.

Lemma get_or_create_lookup (k : string) (store : gmap string Session) :
  store_ok store ->
  key (fst (Sessions.get_or_create k store)) = k
  /\ history (fst (Sessions.get_or_create k store)) = history_of store k
  /\ store_ok (snd (Sessions.get_or_create k store))
  /\ forall k', history_of (snd (Sessions.get_or_create k store)) k'
                = history_of store k'.
Proof.
  intros Hok. unfold Sessions.get_or_create, history_of.
  destruct (store !! k) as [s|] eqn:E; simpl.
  - auto.
  - split; [reflexivity|]. split; [reflexivity|]. split.
    + intros k' s'. rewrite lookup_insert. case_decide.
      * intros [= <-]. simpl. congruence.
      * apply Hok.
    + intros k'. rewrite lookup_insert. case_decide; [|reflexivity].
      subst k'. now rewrite E.
Qed.

Lemma save_lookup (s : Session) (store : gmap string Session) :
  store_ok store ->
  store_ok (Sessions.save s store)
  /\ history_of (Sessions.save s store) (key s) = history s
  /\ forall k', k' <> key s ->
       Sessions.save s store !! k' = store !! k'.
Proof.
  intros Hok. unfold Sessions.save, history_of. split; [|split].
  - intros k' s'. rewrite lookup_insert. case_decide.
    + intros [= <-]. congruence.
    + apply Hok.
  - now rewrite lookup_insert_eq.
  - intros k' Hk. now rewrite lookup_insert_ne.
Qed.

(** What a turn leaves behind: the events, the reply, the store. *)
Lemma turn_body_spec (k channel chat_id : string) (media : option (list string))
    (content user_text fallback : string) (st : State W)
    (r : Result (option OutboundMessage)) (st' : State W) :
  turn_body env self k channel chat_id media content user_text fallback st = (r, st') ->
  exists evs,
    log st' = log st ++ evs
    /\ bus st' = bus st
    /\ (llm_calls evs <= Z.to_nat (max_iterations self))%nat
    /\ (forall out, r = Ok out ->
          out = Some {| out_channel := channel; out_chat_id := chat_id;
                        out_content := default fallback (first_plain_answer evs) |}
          /\ (first_plain_answer evs = None ->
              llm_calls evs = Z.to_nat (max_iterations self)
              \/ exists pre msgs a,
                   evs = pre ++ [LlmCall msgs (Ok a)]
                   /\ has_tool_calls a = false /\ ProviderBase.content a = None)
          /\ (store_ok (sessions st) ->
              store_ok (sessions st')
              /\ history_of (sessions st') k
                 = history_of (sessions st) k
                   ++ [{| role := "user"; entry_content := user_text |};
                       {| role := "assistant";
                          entry_content := default fallback (first_plain_answer evs) |}]
              /\ forall k', k' <> k ->
                   history_of (sessions st') k' = history_of (sessions st) k'))
    /\ (forall e, r = Raise e -> store_ok (sessions st) ->
          forall k', history_of (sessions st') k' = history_of (sessions st) k')
    /\ (never_raises env -> exists out, r = Ok out).
Proof.
  unfold turn_body, bind, get_or_create, update_tool_contexts, build_messages,
    save, ret.
  destruct (Sessions.get_or_create k (sessions st)) as [session store0] eqn:Hg.
  cbv beta iota zeta.
  match goal with
  | |- context [agent_loop env self ?m ?s] =>
      destruct (agent_loop_spec m s) as (evs & Hlog & Hframe & Hle & Hexit & Hok);
      destruct (agent_loop env self m s) as [[exit|e] st2] eqn:Hl
  end; simpl in Hlog, Hframe, Hexit, Hok; intros [= <- <-]; exists evs.
  - destruct Hframe as (Hbus & Hsess & _). simpl in Hbus, Hsess.
    destruct (Hexit exit eq_refl) as (_ & Hfinal & Hnone).
    split; [exact Hlog|]. split; [exact Hbus|]. split; [exact Hle|].
    split; [|split; [discriminate | eauto]].
    intros out [= <-]. rewrite <- Hfinal.
    split; [destruct (final_content exit); reflexivity|].
    split; [exact Hnone|].
    intros Hstore.
    destruct (get_or_create_lookup k (sessions st) Hstore) as (Hk & Hh & Hok0 & Hsame).
    rewrite Hg in Hk, Hh, Hok0, Hsame. simpl in Hk, Hh, Hok0, Hsame.
    set (final := match final_content exit with Some c => c | None => fallback end).
    set (session' := add_message "assistant" final (add_message "user" user_text session)).
    assert (Hkey : key session' = k) by exact Hk.
    simpl. rewrite Hsess.
    destruct (save_lookup session' store0 Hok0) as (Hok1 & Hhist & Hother).
    split; [exact Hok1|]. split.
    + rewrite <- Hkey at 1. rewrite Hhist. unfold session'. simpl.
      rewrite Hh, <- app_assoc. unfold final.
      destruct (final_content exit); reflexivity.
    + intros k' Hk'. unfold history_of at 1. rewrite Hother by congruence.
      apply Hsame.
  - destruct Hframe as (Hbus & Hsess & _). simpl in Hbus, Hsess.
    split; [exact Hlog|]. split; [exact Hbus|]. split; [exact Hle|].
    split; [discriminate|]. split.
    + intros e0 _ Hstore k'. rewrite Hsess.
      destruct (get_or_create_lookup k (sessions st) Hstore) as (_ & _ & _ & Hsame).
      rewrite Hg in Hsame. apply Hsame.
    + intros Hnr. destruct (Hok Hnr) as [x Hx]. discriminate.
Qed.

End AgentFacts.

(** ** Routing of system messages *)

Section Routing.
Import Events ProviderBase Conversation Tools Sessions Runtime Turn Observe.
Import AgentLoop.

Lemma find_char_first (x : ascii) (a b : string) :
  PyStr.contains (String x "") a = false ->
  PyStr.find (String x "") (a +:+ String x "" +:+ b) = Some (String.length a).
Proof.
  induction a as [|c a IH]; intros H.
  - rewrite append_nil, append_cons. cbn. now rewrite Ascii.eqb_refl.
  - apply contains_cons_false in H. destruct H as [Hc Ha].
    rewrite append_cons. cbn [PyStr.find String.length].
    cbn [PyStr.startswith] in Hc |- *. rewrite andb_true_r in Hc |- *.
    rewrite Hc, (IH Ha). reflexivity.
Qed.

Lemma contains_char_app (x : ascii) (a b : string) :
  PyStr.contains (String x "") (a +:+ String x "" +:+ b) = true.
Proof.
  unfold PyStr.contains.
  destruct (PyStr.find (String x "") (a +:+ String x "" +:+ b)) eqn:E;
    [reflexivity|].
  exfalso. revert E. induction a as [|c a IH].
  - rewrite append_nil, append_cons. cbn. now rewrite Ascii.eqb_refl.
  - rewrite append_cons. cbn [PyStr.find].
    destruct (PyStr.startswith _ _); [discriminate|].
    destruct (PyStr.find _ (a +:+ _)); [discriminate | auto].
Qed.

(** With a colon, the origin is what stands before the first colon and
    what stands after it. *)
Lemma parse_origin_colon (a b : string) :
  PyStr.contains ":" a = false ->
  parse_origin (a +:+ ":" +:+ b) = (a, b).
Proof.
  intros H. unfold parse_origin, PyStr.split1.
  rewrite (contains_char_app ":" a b), (find_char_first ":" a b H).
  cbn [nth]. f_equal.
  - apply take_app.
  - rewrite <- drop_drop, drop_app. reflexivity.
Qed.

(** Without a colon, the channel is "cli" and the chat is the whole
    text. *)
Lemma parse_origin_no_colon (chat_id : string) :
  PyStr.contains ":" chat_id = false ->
  parse_origin chat_id = ("cli", chat_id).
Proof. intros H. unfold parse_origin. now rewrite H. Qed.

(** A text with a colon splits at its first colon. *)
Lemma contains_colon_split (s : string) :
  PyStr.contains ":" s = true ->
  exists a b, s = a +:+ ":" +:+ b /\ PyStr.contains ":" a = false.
Proof.
  induction s as [|c s IH]; [discriminate|].
  destruct (Ascii.eqb ":" c) eqn:Ec.
  - intros _. apply Ascii.eqb_eq in Ec. subst c. exists "", s. auto.
  - intros H. assert (Hs : PyStr.contains ":" s = true).
    { revert H. unfold PyStr.contains. cbn [PyStr.find PyStr.startswith].
      rewrite Ec. cbn. destruct (PyStr.find ":" s); [reflexivity | discriminate]. }
    destruct (IH Hs) as (a & b & -> & Ha).
    exists (String c a), b. split; [reflexivity|].
    unfold PyStr.contains in *. cbn [PyStr.find PyStr.startswith].
    rewrite Ec. cbn. destruct (PyStr.find ":" a); [discriminate | reflexivity].
Qed.

Lemma never_raises_plain (answer : option string) :
  never_raises (Examples.plain_env answer).
Proof. split; intros; simpl; eauto. Qed.

(** C1 (as amended).  A message on channel "system" that is processed to
    its end is answered to the origin parsed from its chat_id: with a colon
    in it, the channel is the text before the first colon and the chat the
    text after it; without any, the channel is "cli" and the chat is the
    chat_id as it came.  Processing reaches its end whenever the provider and
    the tools answer. *)
Theorem system_message_routing {W : Type} (env : Env W) (self : AgentLoop)
    (msg : InboundMessage) (st : State W)
    (r : Result (option OutboundMessage)) (st' : State W) :
  in_channel msg = "system" ->
  _process_message env self msg st = (r, st') ->
  (forall out, r = Ok out ->
     exists o, out = Some o
       /\ (forall a b, in_chat_id msg = a +:+ ":" +:+ b ->
             PyStr.contains ":" a = false ->
             out_channel o = a /\ out_chat_id o = b)
       /\ (PyStr.contains ":" (in_chat_id msg) = false ->
             out_channel o = "cli" /\ out_chat_id o = in_chat_id msg))
  /\ (never_raises env -> exists o, r = Ok (Some o)).
Proof.
  intros Hsys Hrun. unfold _process_message in Hrun. rewrite Hsys in Hrun.
  cbn [String.eqb Ascii.eqb] in Hrun. simpl in Hrun.
  rewrite process_system_message_body in Hrun.
  destruct (turn_body_spec env self _ _ _ _ _ _ _ _ _ _ Hrun)
    as (evs & _ & _ & _ & Hout & _ & Hok).
  split.
  - intros out Hr. destruct (Hout out Hr) as (-> & _). eexists. split; [reflexivity|].
    simpl. split.
    + intros a b Hid Ha. rewrite Hid, (parse_origin_colon a b Ha). auto.
    + intros Hno. rewrite (parse_origin_no_colon _ Hno). auto.
  - intros Hnr. destruct (Hok Hnr) as [out Hr].
    destruct (Hout out Hr) as (-> & _). eauto.
Qed.

Lemma system_message_routing_witness :
  exists o,
    fst (_process_message (Examples.plain_env (Some "done")) Examples.agent
           (Examples.inbound_msg "system" "subagent" "telegram:42" "report")
           Examples.start) = Ok (Some o)
    /\ out_channel o = "telegram" /\ out_chat_id o = "42".
Proof.
  destruct (system_message_routing (Examples.plain_env (Some "done")) Examples.agent
              (Examples.inbound_msg "system" "subagent" "telegram:42" "report")
              Examples.start _ _ eq_refl (surjective_pairing _)) as [Hout Hok].
  destruct (Hok (never_raises_plain _)) as [o Ho].
  exists o. split; [exact Ho|].
  destruct (Hout _ Ho) as (o' & [= <-] & Hcolon & _).
  apply (Hcolon "telegram" "42"); reflexivity.
Defined.

(** C1 as stated fails twice over: a chat_id that begins with "system:" is
    answered on channel "system", and without a colon the chat of the answer
    is the chat_id of the message, so no fixed pair is fallen back to. *)
Lemma system_message_routing_counterexample :
  fst (_process_message (Examples.plain_env (Some "done")) Examples.agent
         (Examples.inbound_msg "system" "subagent" "system:42" "report")
         Examples.start)
  = Ok (Some {| out_channel := "system"; out_chat_id := "42";
                out_content := "done" |})
  /\ fst (_process_message (Examples.plain_env (Some "done")) Examples.agent
            (Examples.inbound_msg "system" "subagent" "alice" "report")
            Examples.start)
     = Ok (Some {| out_channel := "cli"; out_chat_id := "alice";
                   out_content := "done" |})
  /\ fst (_process_message (Examples.plain_env (Some "done")) Examples.agent
            (Examples.inbound_msg "system" "subagent" "bob" "report")
            Examples.start)
     = Ok (Some {| out_channel := "cli"; out_chat_id := "bob";
                   out_content := "done" |}).
Proof. repeat split; vm_compute; reflexivity. Qed.

End Routing.

(** ** The bound of the loop and the fallback *)

Section LoopBound.
Import Events ProviderBase Conversation Tools Sessions Runtime Turn Observe.
Import AgentLoop.

Lemma first_plain_answer_None (evs : list Event) :
  first_plain_answer evs = None <-> Forall (fun ev => plain_answer ev = None) evs.
Proof.
  induction evs as [|ev evs IH]; simpl.
  - split; [constructor | reflexivity].
  - destruct (plain_answer ev) eqn:E.
    + split; [discriminate|]. intros H. inversion H. congruence.
    + rewrite IH. split; [now constructor | now inversion 1].
Qed.

(** C2 (as amended).  A turn for a message of an ordinary channel calls the
    provider at most max_iterations times (never when max_iterations is not
    positive) and comes to its end whenever the provider and the tools
    answer.  Its final content is the content of the answer that came without
    tool calls and with a content that is not null, and the fallback text
    when no such answer came: either the ceiling was reached, or an answer
    without tool calls carried a null content. *)
Theorem turn_loop_bounded {W : Type} (env : Env W) (self : AgentLoop)
    (msg : InboundMessage) (st : State W)
    (r : Result (option OutboundMessage)) (st' : State W) :
  String.eqb (in_channel msg) "system" = false ->
  _process_message env self msg st = (r, st') ->
  exists evs,
    log st' = log st ++ evs
    /\ (Z.of_nat (llm_calls evs) <= Z.max 0 (max_iterations self))%Z
    /\ (forall out, r = Ok out ->
          exists o, out = Some o
            /\ out_content o = default fallback_content (first_plain_answer evs)
            /\ (first_plain_answer evs = None ->
                llm_calls evs = Z.to_nat (max_iterations self)
                \/ exists pre msgs a,
                     evs = pre ++ [LlmCall msgs (Ok a)]
                     /\ has_tool_calls a = false /\ content a = None))
    /\ (never_raises env -> exists o, r = Ok (Some o)).
Proof.
  intros Hch Hrun. rewrite (process_message_body env self msg Hch) in Hrun.
  destruct (turn_body_spec env self _ _ _ _ _ _ _ _ _ _ Hrun)
    as (evs & Hlog & _ & Hle & Hout & _ & Hok).
  exists evs. split; [exact Hlog|]. split; [lia|]. split.
  - intros out Hr. destruct (Hout out Hr) as (-> & Hnone & _).
    eexists. split; [reflexivity|]. split; [reflexivity | exact Hnone].
  - intros Hnr. destruct (Hok Hnr) as [out Hr].
    destruct (Hout out Hr) as (-> & _). eauto.
Qed.

Lemma turn_loop_bounded_witness :
  exists evs,
    (Z.of_nat (llm_calls evs) <= 20)%Z
    /\ exists o,
         fst (_process_message (Examples.plain_env (Some "hello")) Examples.agent
                (Examples.inbound_msg "telegram" "alice" "42" "hi")
                Examples.start) = Ok (Some o).
Proof.
  destruct (turn_loop_bounded (Examples.plain_env (Some "hello")) Examples.agent
              (Examples.inbound_msg "telegram" "alice" "42" "hi")
              Examples.start _ _ eq_refl (surjective_pairing _))
    as (evs & _ & Hle & _ & Hok).
  exists evs. split; [exact Hle|].
  exact (Hok (never_raises_plain _)).
Defined.

(** C2 as stated fails: an answer without tool calls and with a null
    content ends the turn with the fallback text at the first of twenty
    allowed calls, the ceiling not being reached. *)
Lemma turn_loop_counterexample :
  fst (_process_message (Examples.plain_env None) Examples.agent
         (Examples.inbound_msg "telegram" "alice" "42" "hi") Examples.start)
  = Ok (Some {| out_channel := "telegram"; out_chat_id := "42";
                out_content := fallback_content |})
  /\ llm_calls (log (snd (_process_message (Examples.plain_env None) Examples.agent
                            (Examples.inbound_msg "telegram" "alice" "42" "hi")
                            Examples.start))) = 1%nat
  /\ max_iterations Examples.agent = 20%Z.
Proof. repeat split; vm_compute; reflexivity. Qed.

End LoopBound.

(** ** The history of a session *)

Section History.
Import Events ProviderBase Conversation Tools Sessions Runtime Turn Observe.
Import AgentLoop.

Context {W : Type} (env : Env W) (self : AgentLoop).

(** Either kind of message is processed by the common body, in the session
    it is aimed at. *)
Lemma process_message_turn (msg : InboundMessage) :
  exists channel chat_id media content user_text fallback,
    _process_message env self msg =
    turn_body env self (target_key msg) channel chat_id media content
      user_text fallback.
Proof.
  unfold target_key. destruct (String.eqb (in_channel msg) "system") eqn:E.
  - unfold _process_message. rewrite E, process_system_message_body.
    destruct (parse_origin (in_chat_id msg)) as [c i]. simpl.
    do 6 eexists. reflexivity.
  - rewrite (process_message_body env self msg E). do 6 eexists. reflexivity.
Qed.

(** The loop of a turn leaves the store of sessions as it found it. *)
Lemma agent_loop_sessions (messages : list ChatMessage) (st : State W) :
  sessions (snd (agent_loop env self messages st)) = sessions st.
Proof.
  destruct (agent_loop_spec env self messages st) as (_ & _ & (_ & H & _) & _).
  exact H.
Qed.

Lemma processed_history (msgs : list InboundMessage) (st st' : State W)
    (k : string) :
  processed env self msgs st st' ->
  store_ok (sessions st) ->
  Forall (fun m => target_key m = k) msgs ->
  store_ok (sessions st')
  /\ exists new,
       history_of (sessions st') k = history_of (sessions st) k ++ new
       /\ map role new = flat_map (fun _ => ["user"; "assistant"]) msgs.
Proof.
  induction 1 as [st | msg rest st out st1 st' Hrun _ IH]; intros Hstore Hall.
  - split; [exact Hstore|]. exists []. now rewrite app_nil_r.
  - inversion Hall as [|? ? Hk Hrest]; subst.
    destruct (process_message_turn msg)
      as (channel & chat_id & media & content & user_text & fallback & Hbody).
    rewrite Hbody in Hrun.
    destruct (turn_body_spec env self _ _ _ _ _ _ _ _ _ _ Hrun)
      as (evs & _ & _ & _ & Hout & _).
    destruct (Hout out eq_refl) as (_ & _ & Hsess).
    destruct (Hsess Hstore) as (Hstore1 & Hhist & _).
    destruct (IH Hstore1 Hrest) as (Hstore' & new & Hnew & Hroles).
    split; [exact Hstore'|].
    eexists. split.
    + rewrite Hnew, Hhist, <- app_assoc. reflexivity.
    + rewrite map_app, Hroles. reflexivity.
Qed.

(** C3.  When messages aimed at one session are processed one after the
    other, each to completion, the history of the session is the former
    history followed by one user entry and one assistant entry per message,
    nothing of the former history being changed; and the tool-calling loop of
    a turn leaves the store of sessions untouched, the two entries being
    appended after it. *)
Theorem session_history_growth (msgs : list InboundMessage) (st st' : State W)
    (k : string) :
  store_ok (sessions st) ->
  Forall (fun m => target_key m = k) msgs ->
  processed env self msgs st st' ->
  (exists new,
     history_of (sessions st') k = history_of (sessions st) k ++ new
     /\ map role new = flat_map (fun _ => ["user"; "assistant"]) msgs
     /\ length new = (2 * length msgs)%nat)
  /\ (forall messages s,
        sessions (snd (agent_loop env self messages s)) = sessions s).
Proof.
  intros Hstore Hall Hrun. split; [|apply agent_loop_sessions].
  destruct (processed_history msgs st st' k Hrun Hstore Hall)
    as (_ & new & Hnew & Hroles).
  exists new. split; [exact Hnew|]. split; [exact Hroles|].
  rewrite <- (length_map role), Hroles.
  clear. induction msgs as [|m msgs IH]; simpl; [reflexivity | lia].
Qed.

End History.

Lemma store_ok_empty : Observe.store_ok ∅.
Proof. intros k s H. rewrite lookup_empty in H. discriminate. Qed.

Lemma session_history_growth_witness :
  exists st',
    Observe.processed (Examples.plain_env (Some "hello")) Examples.agent
      [Examples.inbound_msg "telegram" "alice" "42" "hi";
       Examples.inbound_msg "system" "subagent" "telegram:42" "report"]
      Examples.start st'
    /\ map Sessions.role (Observe.history_of (Runtime.sessions st') "telegram:42")
       = ["user"; "assistant"; "user"; "assistant"].
Proof.
  eexists. split.
  - eapply Observe.processed_cons; [vm_compute; reflexivity|].
    eapply Observe.processed_cons; [vm_compute; reflexivity|].
    apply Observe.processed_nil.
  - match goal with
    | |- map _ (Observe.history_of (Runtime.sessions ?s) _) = _ =>
        destruct (session_history_growth (Examples.plain_env (Some "hello"))
                    Examples.agent
                    [Examples.inbound_msg "telegram" "alice" "42" "hi";
                     Examples.inbound_msg "system" "subagent" "telegram:42" "report"]
                    Examples.start s "telegram:42" store_ok_empty)
          as [(new & Hnew & Hroles & _) _]
    end.
    + repeat constructor.
    + eapply Observe.processed_cons; [vm_compute; reflexivity|].
      eapply Observe.processed_cons; [vm_compute; reflexivity|].
      apply Observe.processed_nil.
    + rewrite Hnew. exact Hroles.
Defined.

(** ** Subagents *)

Section SubagentFacts.
Import Events ProviderBase Conversation Tools Sessions Runtime Turn Observe.
Import Subagent.

Lemma subagent_turn_frame {W : Type} (env : Env W) (self : SubagentManager)
    (task : string) (st : State W) :
  same_frame st (snd (subagent_turn env self task st)).
Proof.
  unfold subagent_turn, bind.
  match goal with
  | |- context [tool_loop env ?a ?t ?m ?n ?i ?ms st] =>
      destruct (tool_loop_spec env a t m n i ms st) as (evs & _ & Hframe & _);
      destruct (tool_loop env a t m n i ms st) as [[exit|e] st1]
  end; exact Hframe.
Qed.

(** C4.  A run of a subagent never raises, and it puts exactly one message
    on the inbound queue of the bus, whether its turn ended or raised: the
    channel is "system", the sender "subagent", the chat_id the origin's
    channel and chat joined by a colon; the content reports the result with
    status ok, or the exception with status error. *)
Theorem subagent_announces_once {W : Type} (env : Env W) (self : SubagentManager)
    (task_id task label : string) (origin : Origin) (st : State W)
    (r : Result unit) (st' : State W) :
  _run_subagent env self task_id task label origin st = (r, st') ->
  r = Ok tt
  /\ exists msg,
       Bus.inbound (bus st') = Bus.inbound (bus st) ++ [msg]
       /\ Bus.outbound (bus st') = Bus.outbound (bus st)
       /\ sessions st' = sessions st
       /\ in_channel msg = "system"
       /\ in_sender_id msg = "subagent"
       /\ in_chat_id msg = origin_channel origin +:+ ":" +:+ origin_chat_id origin
       /\ in_content msg =
          match fst (subagent_turn env self task st) with
          | Ok final_result => announce_content label task final_result "ok"
          | Raise e =>
              announce_content label task ("错误信息: " +:+ exn_str e) "error"
          end.
Proof.
  unfold _run_subagent, bind.
  pose proof (subagent_turn_frame env self task st) as (Hbus & Hsess & _).
  destruct (subagent_turn env self task st) as [[final_result|e] st1];
    simpl in Hbus, Hsess; unfold _announce_result, publish_inbound;
    intros [= <- <-]; (split; [reflexivity|]); eexists; simpl;
    rewrite Hbus, Hsess; repeat split.
Qed.

Lemma subagent_announces_once_witness :
  exists msg,
    Bus.inbound
      (bus (snd (_run_subagent Examples.failing_env
                   {| sm_settings := Examples.settings; sm_model := "m" |}
                   "1a2b3c4d" "count the files" "count"
                   {| origin_channel := "telegram"; origin_chat_id := "42" |}
                   Examples.start))) = [msg]
    /\ in_channel msg = "system"
    /\ in_chat_id msg = "telegram:42"
    /\ in_content msg =
       announce_content "count" "count the files"
         "错误信息: connection refused" "error".
Proof.
  destruct (subagent_announces_once Examples.failing_env
              {| sm_settings := Examples.settings; sm_model := "m" |}
              "1a2b3c4d" "count the files" "count"
              {| origin_channel := "telegram"; origin_chat_id := "42" |}
              Examples.start _ _ (surjective_pairing _))
    as (_ & msg & Hin & _ & _ & Hch & _ & Hid & Hcontent).
  exists msg. split; [exact Hin|]. split; [exact Hch|]. split; [exact Hid|].
  exact Hcontent.
Defined.

(** The tools of a subagent, spelled out. *)
Lemma subagent_tools_eq (s : ToolSettings) :
  subagent_tools s =
  let allowed_dir := if restrict_to_workspace s then Some (workspace s) else None in
  [("read_file", ReadFileTool allowed_dir);
   ("write_file", WriteFileTool allowed_dir);
   ("list_dir", ListDirTool allowed_dir);
   ("exec", ExecTool (workspace s) (exec_timeout s) (restrict_to_workspace s));
   ("web_search", WebSearchTool (brave_api_key s));
   ("web_fetch", WebFetchTool)].
Proof. reflexivity. Qed.

(** The default tools of the agent, spelled out. *)
Lemma default_tools_eq (s : ToolSettings) (cron : bool) :
  _register_default_tools s cron =
  let allowed_dir := if restrict_to_workspace s then Some (workspace s) else None in
  [("read_file", ReadFileTool allowed_dir);
   ("write_file", WriteFileTool allowed_dir);
   ("edit_file", EditFileTool allowed_dir);
   ("list_dir", ListDirTool allowed_dir);
   ("exec", ExecTool (workspace s) (exec_timeout s) (restrict_to_workspace s));
   ("web_search", WebSearchTool (brave_api_key s));
   ("web_fetch", WebFetchTool);
   ("message", MessageTool);
   ("spawn", SpawnTool)]
  ++ (if cron then [("cron", CronTool)] else []).
Proof. destruct cron; reflexivity. Qed.

(** C5.  The registry a subagent builds holds neither the message tool nor
    the spawn tool; it holds the tools that read, write and list files, run
    shell commands, search and fetch the web; and each of its tools is in
    the registry of the agent that owns the subagent manager under the same
    name and built with the same arguments, the workspace restriction among
    them. *)
Theorem subagent_tools_restricted (s : ToolSettings) (model : string)
    (max_iterations : Z) (cron : bool) :
  let self := AgentLoop.new s model max_iterations cron in
  let registry := subagent_tools (sm_settings (AgentLoop.subagents self)) in
  get "message" registry = None
  /\ get "spawn" registry = None
  /\ Forall (fun t => t <> MessageTool /\ t <> SpawnTool) (get_definitions registry)
  /\ map name (get_definitions registry)
     = ["read_file"; "write_file"; "list_dir"; "exec"; "web_search"; "web_fetch"]
  /\ (forall tool_name t,
        get tool_name registry = Some t ->
        get tool_name (AgentLoop.tools self) = Some t).
Proof.
  cbv zeta. cbn [AgentLoop.subagents AgentLoop.new sm_settings AgentLoop.settings
                 AgentLoop.tools].
  rewrite subagent_tools_eq, default_tools_eq. cbv zeta.
  split; [reflexivity|]. split; [reflexivity|]. split.
  { repeat constructor; discriminate. }
  split; [reflexivity|].
  intros tool_name t. unfold get. cbn [assoc app].
  repeat match goal with
         | |- context [String.eqb tool_name ?n] =>
             destruct (String.eqb tool_name n) eqn:?
         end;
    try discriminate; try (intros H; exact H);
    repeat match goal with
           | H : String.eqb _ _ = true |- _ => apply String.eqb_eq in H; subst
           end;
    discriminate.
Qed.

End SubagentFacts.

Lemma subagent_tools_restricted_witness :
  Tools.get "exec" (AgentLoop.tools Examples.agent)
  = Some (Tools.ExecTool "/ws" 60 true)
  /\ Tools.get "read_file" (AgentLoop.tools Examples.agent)
     = Some (Tools.ReadFileTool (Some "/ws")).
Proof.
  destruct (subagent_tools_restricted Examples.settings
              "anthropic/claude-opus-4-5" AgentLoop.default_max_iterations false)
    as (_ & _ & _ & _ & Hsame).
  split; apply Hsame; reflexivity.
Defined.

(** ** The provider *)

Section ProviderFacts.
Import ProviderBase Conversation Tools Runtime Turn LiteLLM.

Variable find_by_model : string -> option ProviderSpec.
Variable json_loads : string -> option Json.

(** C6.  [chat] returns a response and never raises, whatever the
    completion call does.  When the completion call raises, the response has
    the error text as content, no tool call and the finish reason "error";
    and a tool-calling loop whose provider answers so ends at that call
    through its branch for answers without tool calls, with the error text
    as final content. *)
Theorem chat_returns_error_response (self : LiteLLMProvider)
    (acompletion : Kwargs -> Result RawResponse)
    (messages : list ChatMessage) (tools : option (list Json))
    (model : option string) (max_tokens : Z) (temperature : Q) :
  (exists response,
     chat find_by_model json_loads self acompletion messages tools model
          max_tokens temperature = Ok response)
  /\ forall e,
       acompletion (build_kwargs find_by_model self messages tools model
                      max_tokens temperature) = Raise e ->
       exists response,
         chat find_by_model json_loads self acompletion messages tools model
              max_tokens temperature = Ok response
         /\ content response = Some ("调用 LLM 时出错: " +:+ exn_str e)
         /\ tool_calls response = []
         /\ finish_reason response = "error"
         /\ has_tool_calls response = false
         /\ forall (W : Type) (env : Env W) add registry name remaining it
                   history (st : State W) (w : W),
              provider_chat env history (get_definitions registry) name (world st)
                = (Ok response, w) ->
              tool_loop env add registry name (S remaining) it history st
              = (Ok {| iteration := S it; final_messages := history;
                       final_content := Some ("调用 LLM 时出错: " +:+ exn_str e) |},
                 set_world w [LlmCall history (Ok response)] st).
Proof.
  split.
  - unfold chat.
    destruct (acompletion _) as [response|e]; [|eauto].
    destruct (_parse_response json_loads response); eauto.
  - intros e Hraise. unfold chat. rewrite Hraise.
    eexists. split; [reflexivity|]. repeat split.
    intros W env add registry name remaining it history st w Hchat.
    rewrite tool_loop_step, Hchat. reflexivity.
Qed.

End ProviderFacts.

Lemma chat_returns_error_response_witness :
  exists response,
    LiteLLM.chat (fun _ => None) (fun _ => None)
      {| LiteLLM.api_base := None;
         LiteLLM.default_model := "anthropic/claude-opus-4-5";
         LiteLLM.extra_headers := []; LiteLLM._gateway := None |}
      (fun _ => Raise (OtherError "timeout")) [] None None 4096 (7 # 10)
    = Ok response
    /\ ProviderBase.content response = Some "调用 LLM 时出错: timeout"
    /\ ProviderBase.has_tool_calls response = false.
Proof.
  destruct (chat_returns_error_response (fun _ => None) (fun _ => None)
              {| LiteLLM.api_base := None;
                 LiteLLM.default_model := "anthropic/claude-opus-4-5";
                 LiteLLM.extra_headers := []; LiteLLM._gateway := None |}
              (fun _ => Raise (OtherError "timeout")) [] None None 4096 (7 # 10))
    as [_ Herr].
  destruct (Herr (OtherError "timeout") eq_refl)
    as (response & Hchat & Hcontent & _ & _ & Hnone & _).
  exists response. split; [exact Hchat|]. split; [exact Hcontent | exact Hnone].
Defined.

(** ** The bus *)

Section BusFacts.
Import Events Bus.

(** C10.  A pass of the dispatch loop that takes a message whose channel
    has no entry among the subscribers removes it from the outbound queue
    and does nothing else: no callback is called, nothing is logged, nothing
    is put on a queue; and the loop goes on with the rest of the queue. *)
Theorem dispatch_discards_unsubscribed (b : MessageBus)
    (log : list DispatchEvent) (msg : OutboundMessage)
    (rest : list OutboundMessage) (n : nat) :
  outbound b = msg :: rest ->
  _outbound_subscribers b !! out_channel msg = None ->
  dispatch_step (b, log)
  = ({| inbound := inbound b; outbound := rest;
        _outbound_subscribers := _outbound_subscribers b;
        _running := _running b |}, log)
  /\ dispatch_outbound (S n) (b, log)
     = dispatch_outbound n
         ({| inbound := inbound b; outbound := rest;
             _outbound_subscribers := _outbound_subscribers b;
             _running := _running b |}, log).
Proof.
  intros Hq Hsub.
  assert (Hstep : dispatch_step (b, log)
                  = ({| inbound := inbound b; outbound := rest;
                        _outbound_subscribers := _outbound_subscribers b;
                        _running := _running b |}, log)).
  { unfold dispatch_step. rewrite Hq, Hsub. simpl. now rewrite app_nil_r. }
  split; [exact Hstep|]. cbn [dispatch_outbound]. now rewrite Hstep.
Qed.

Lemma dispatch_discards_unsubscribed_witness :
  dispatch_outbound 2
    (publish_outbound {| out_channel := "telegram"; out_chat_id := "42";
                         out_content := "second" |}
       (publish_outbound {| out_channel := "system"; out_chat_id := "cli:direct";
                            out_content := "first" |}
          (subscribe_outbound "telegram"
             {| cb_name := "telegram.send"; cb_raises := fun _ => None |} init)),
     [])
  = dispatch_outbound 1
      ({| inbound := [];
          outbound := [{| out_channel := "telegram"; out_chat_id := "42";
                          out_content := "second" |}];
          _outbound_subscribers :=
            {["telegram" := [{| cb_name := "telegram.send";
                                cb_raises := fun _ => None |}]]};
          _running := false |}, []).
Proof.
  apply (dispatch_discards_unsubscribed
           (publish_outbound {| out_channel := "telegram"; out_chat_id := "42";
                                out_content := "second" |}
              (publish_outbound {| out_channel := "system"; out_chat_id := "cli:direct";
                                   out_content := "first" |}
                 (subscribe_outbound "telegram"
                    {| cb_name := "telegram.send"; cb_raises := fun _ => None |} init)))
           [] {| out_channel := "system"; out_chat_id := "cli:direct";
                 out_content := "first" |}
           [{| out_channel := "telegram"; out_chat_id := "42";
               out_content := "second" |}] 1); reflexivity.
Defined.

End BusFacts.

(** ** The filesystem tools *)

Section FilesystemFacts.
Import Filesystem Observe.

(** C9.  With an allowed directory, [_resolve_path] admits a path exactly
    when the resolved path, as a string, starts with the resolved allowed
    directory, as a string.  This is not containment: with /ws allowed,
    /ws2/f is admitted though it is not within /ws.  A path that is not
    admitted makes [execute] of the read, write, edit and list tools return
    an error text; the file system is left as it was. *)
Theorem resolve_path_prefix_test (expanduser resolve : string -> string)
    (path dir : string) :
  let resolved := resolve (expanduser path) in
  (PyStr.startswith resolved (resolve dir) = true ->
   _resolve_path expanduser resolve path (Some dir) = Ok resolved)
  /\ (PyStr.startswith resolved (resolve dir) = false ->
      exists m,
        _resolve_path expanduser resolve path (Some dir) = Raise (PermissionError m)
        /\ forall (fs : gmap string Node) (content old_text new_text : string),
             ReadFileTool_execute expanduser resolve (Some dir) path fs
               = "错误：" +:+ m
             /\ WriteFileTool_execute expanduser resolve (Some dir) path content fs
                = ("错误：" +:+ m, fs)
             /\ EditFileTool_execute expanduser resolve (Some dir) path
                  old_text new_text fs
                = ("错误：" +:+ m, fs)
             /\ ListDirTool_execute expanduser resolve (Some dir) path fs
                = "Error: " +:+ m)
  /\ (resolve (expanduser "/ws2/f") = "/ws2/f" -> resolve "/ws" = "/ws" ->
      _resolve_path expanduser resolve "/ws2/f" (Some "/ws") = Ok "/ws2/f"
      /\ is_within "/ws" "/ws2/f" = false).
Proof.
  cbv zeta. split; [|split].
  - intros H. unfold _resolve_path. now rewrite H.
  - intros H. eexists. split.
    + unfold _resolve_path. rewrite H. reflexivity.
    + intros fs content old_text new_text.
      unfold ReadFileTool_execute, WriteFileTool_execute, EditFileTool_execute,
        ListDirTool_execute, _resolve_path.
      rewrite H. repeat split.
  - intros H1 H2. unfold _resolve_path. rewrite H1, H2. split; reflexivity.
Qed.

Lemma resolve_path_prefix_test_witness :
  _resolve_path (fun p => p) (fun p => p) "/ws2/f" (Some "/ws") = Ok "/ws2/f"
  /\ is_within "/ws" "/ws2/f" = false
  /\ ReadFileTool_execute (fun p => p) (fun p => p) (Some "/ws") "/etc/passwd"
       {["/etc/passwd" := File "root"]}
     = "错误：路径 /etc/passwd 在允许的目录 /ws 之外".
Proof.
  pose proof (resolve_path_prefix_test (fun p => p) (fun p => p) "/etc/passwd" "/ws")
    as (_ & Hrej & Hsib).
  destruct (Hsib eq_refl eq_refl) as [H1 H2].
  split; [exact H1|]. split; [exact H2|].
  destruct (Hrej eq_refl) as (m & Hm & Htools).
  destruct (Htools {["/etc/passwd" := File "root"]} "" "" "") as (Hread & _).
  rewrite Hread. injection Hm as <-. reflexivity.
Defined.

Lemma contains_empty (s : string) : PyStr.contains "" s = true.
Proof. unfold PyStr.contains. destruct s; reflexivity. Qed.

Lemma count_scan_contains (sub s : string) (skip : nat) :
  (0 < PyStr.count_scan sub s skip)%nat -> PyStr.contains sub s = true.
Proof.
  revert skip. induction s as [|c s IH]; intros skip; simpl; [lia|].
  unfold PyStr.contains in *. cbn [PyStr.find].
  destruct (PyStr.startswith (String c s) sub) eqn:E.
  - reflexivity.
  - destruct skip as [|k]; intros H; specialize (IH _ H);
      destruct (PyStr.find sub s); simpl; congruence.
Qed.

Lemma count_contains (sub s : string) :
  (0 < PyStr.count sub s)%nat -> PyStr.contains sub s = true.
Proof.
  destruct sub as [|c sub]; [intros _; apply contains_empty|].
  apply count_scan_contains.
Qed.

(** When [str.count] finds the text more than once, the edit is refused
    with the count and the file system is left as it was. *)
Lemma edit_refused_when_counted_twice (expanduser resolve : string -> string)
    (allowed_dir : option string) (path old_text new_text : string)
    (fs : gmap string Node) (file_path content : string) :
  _resolve_path expanduser resolve path allowed_dir = Ok file_path ->
  fs !! file_path = Some (File content) ->
  (1 < PyStr.count old_text content)%nat ->
  EditFileTool_execute expanduser resolve allowed_dir path old_text new_text fs
  = ("警告：old_text出现了" +:+ PyStr.of_nat (PyStr.count old_text content)
     +:+ "次。请提供更多上下文使其唯一。", fs).
Proof.
  intros Hp Hf Hc. unfold EditFileTool_execute, path_exists, read_text.
  rewrite Hp, Hf. cbn [negb].
  rewrite (count_contains old_text content) by lia. cbn [negb].
  apply Nat.ltb_lt in Hc. now rewrite Hc.
Qed.

(** When [str.count] finds the text once, the first match is replaced. *)
Lemma edit_replaces_when_counted_once (expanduser resolve : string -> string)
    (allowed_dir : option string) (path old_text new_text : string)
    (fs : gmap string Node) (file_path content : string) :
  _resolve_path expanduser resolve path allowed_dir = Ok file_path ->
  fs !! file_path = Some (File content) ->
  PyStr.count old_text content = 1%nat ->
  EditFileTool_execute expanduser resolve allowed_dir path old_text new_text fs
  = ("成功编辑了" +:+ path,
     <[file_path := File (PyStr.replace1 old_text new_text content)]> fs).
Proof.
  intros Hp Hf Hc. unfold EditFileTool_execute, path_exists, read_text, write_text.
  rewrite Hp, Hf. cbn [negb].
  rewrite (count_contains old_text content) by lia. cbn [negb].
  rewrite Hc. reflexivity.
Qed.

(** C8 fails on matches that overlap.  In a file that reads "aaa" the text
    "aa" is matched at positions 0 and 1, yet [str.count] counts matches that
    do not overlap and finds one: the edit is made, at the first match, and
    reported as a success. *)
Theorem edit_overlapping_occurrences :
  PyStr.occurrences "aa" "aaa" = [0; 1]%nat
  /\ PyStr.count "aa" "aaa" = 1%nat
  /\ EditFileTool_execute (fun p => p) (fun p => p) (Some "/ws") "/ws/f" "aa" "b"
       {["/ws/f" := File "aaa"]}
     = ("成功编辑了/ws/f", {["/ws/f" := File "ba"]}).
Proof.
  split; [reflexivity|]. split; [reflexivity|].
  rewrite (edit_replaces_when_counted_once _ _ _ _ _ _ _ "/ws/f" "aaa");
    reflexivity.
Qed.

End FilesystemFacts.

(** ** Validation of tool arguments *)

Section ValidateFacts.
Import ToolBase.

Variable fmt : Json -> string.

(** On a dict checked against an object schema, the violations are those
    of the enum, the missing required keys, and those of each field that has
    a declared property. *)
Lemma validate_object (fields : list (string * Json)) (schema : Schema)
    (path : string) :
  s_type schema = Some "object" ->
  _validate fmt (JObj fields) schema path =
  enum_errors fmt (if String.eqb path "" then "parameter" else path) schema
    (JObj fields)
  ++ required_errors path (default [] (s_required schema)) fields
  ++ flat_map (fun kv =>
                 match assoc (fst kv) (default [] (s_properties schema)) with
                 | Some sub => _validate fmt (snd kv) sub (child_path path (fst kv))
                 | None => []
                 end) fields.
Proof.
  intros Ht. cbn [_validate]. rewrite Ht.
  unfold range_errors, length_errors. rewrite Ht.
  change (type_mismatch (Some "object") (JObj fields)) with false.
  change (type_is (Some "object") "integer") with false.
  change (type_is (Some "object") "number") with false.
  change (type_is (Some "object") "string") with false.
  change (type_is (Some "object") "object") with true.
  change (type_is (Some "object") "array") with false.
  cbn [orb app]. rewrite app_nil_r. do 2 f_equal.
  induction fields as [|[k v] fields IH]; [reflexivity|].
  cbn [flat_map fst snd]. now rewrite IH.
Qed.

Lemma flat_map_empty {A B : Type} (f : A -> list B) (l : list A) (x : A) :
  flat_map f l = [] -> In x l -> f x = [].
Proof.
  induction l as [|y l IH]; [contradiction|].
  cbn [flat_map]. intros H. apply app_eq_nil in H. destruct H as [Hy Hl].
  intros [-> | Hin]; [exact Hy | now apply IH].
Qed.

Lemma required_errors_missing (path : string) (required : list string)
    (fields : list (string * Json)) (k : string) :
  In k required -> assoc k fields = None ->
  In ("missing required " +:+ child_path path k)
     (required_errors path required fields).
Proof.
  induction required as [|k' required IH]; [contradiction|].
  intros [-> | Hin] Hnone; cbn [required_errors]; apply in_or_app.
  - left. rewrite Hnone. now left.
  - right. now apply IH.
Qed.

(** A number above the maximum of a schema of type integer or number
    violates it, whatever else the schema says. *)
Lemma validate_above_maximum (v : Json) (sub : Schema) (path : string)
    (m : Number) :
  type_is (s_type sub) "integer" || type_is (s_type sub) "number" = true ->
  s_maximum sub = Some m ->
  num_gt v m = true ->
  _validate fmt v sub path <> [].
Proof.
  intros Ht Hm Hgt.
  assert (Hcases :
    forall rest,
      (if type_mismatch (s_type sub) v
       then [(if String.eqb path "" then "parameter" else path)
             +:+ " should be " +:+ default "" (s_type sub)]
       else enum_errors fmt (if String.eqb path "" then "parameter" else path) sub v
            ++ range_errors fmt (if String.eqb path "" then "parameter" else path) sub v
            ++ rest) <> []).
  { intros rest. destruct (type_mismatch (s_type sub) v); [discriminate|].
    unfold range_errors. rewrite Ht, Hm, Hgt.
    intros H. apply app_eq_nil in H. destruct H as [_ H].
    apply app_eq_nil in H. destruct H as [H _].
    apply app_eq_nil in H. destruct H as [_ H]. discriminate. }
  destruct v; cbn [_validate]; apply Hcases.
Qed.

(** C7 (as amended).  For a tool whose schema has the type "object" or no
    type, [validate_params] returns a list of violation texts.  The checks
    cover the type, the enum, the minimum and the maximum, the length of a
    string, the required keys, the nested properties and the items of an
    array.  Arguments that lack a required key of the schema, or that hold
    under a property of type integer or number a number above the maximum of
    that property, give a list that is not empty; and on a list that is
    not empty the registry answers with the violations without running the
    tool. *)
Theorem validate_params_rejects (parameters : Schema) (params : Json) :
  s_type parameters = None \/ s_type parameters = Some "object" ->
  exists errors,
    validate_params fmt parameters params = Ok errors
    /\ (forall fields k,
          params = JObj fields ->
          In k (default [] (s_required parameters)) ->
          assoc k fields = None ->
          In ("missing required " +:+ k) errors)
    /\ (forall fields k v sub m,
          params = JObj fields ->
          In (k, v) fields ->
          assoc k (default [] (s_properties parameters)) = Some sub ->
          type_is (s_type sub) "integer" || type_is (s_type sub) "number" = true ->
          s_maximum sub = Some m ->
          num_gt v m = true ->
          errors <> [])
    /\ (forall (W : Type) (tool : Registry.ToolImpl W) (w : W),
          Registry.impl_parameters tool = parameters ->
          errors <> [] ->
          Registry.execute fmt tool params w
          = ("Error: Invalid parameters for tool '" +:+ Registry.impl_name tool
             +:+ "': " +:+ Filesystem.join "; " errors, w))
    /\ _validate fmt (JInt 5) (Examples.typed "string") "x" = ["x should be string"]
    /\ _validate fmt (JStr "c") (Examples.one_of [JStr "a"; JStr "b"]) "x"
       = ["x must be one of " +:+ fmt (JArr [JStr "a"; JStr "b"])]
    /\ _validate fmt (JInt 0) (Examples.bounded_integer 1 9) "x"
       = ["x must be >= " +:+ fmt (JInt 1)]
    /\ _validate fmt (JInt 10) (Examples.bounded_integer 1 9) "x"
       = ["x must be <= " +:+ fmt (JInt 9)]
    /\ _validate fmt (JStr "a") (Examples.bounded_string 2 3) "x"
       = ["x must be at least " +:+ fmt (JInt 2) +:+ " chars"]
    /\ _validate fmt (JStr "abcd") (Examples.bounded_string 2 3) "x"
       = ["x must be at most " +:+ fmt (JInt 3) +:+ " chars"]
    /\ _validate fmt (JObj [("o", JObj [])])
         (Examples.object_of [("o", Examples.object_of [] ["k"])] []) ""
       = ["missing required o.k"]
    /\ _validate fmt (JArr [JInt 1; JStr "a"])
         (Examples.array_of (Examples.typed "integer")) "x"
       = ["x[1] should be integer"].
Proof.
  intros Htype.
  exists (_validate fmt params (with_type "object" parameters) "").
  split.
  { unfold validate_params. destruct Htype as [-> | ->]; reflexivity. }
  split.
  { intros fields k -> Hin Hnone.
    rewrite validate_object by reflexivity.
    apply in_or_app. right. apply in_or_app. left.
    apply (required_errors_missing "" _ fields k Hin Hnone). }
  split.
  { intros fields k v sub m -> Hin Hsub Ht Hm Hgt.
    rewrite validate_object by reflexivity.
    intros H. apply app_eq_nil in H. destruct H as [_ H].
    apply app_eq_nil in H. destruct H as [_ H].
    assert (Hall := flat_map_empty _ _ (k, v) H Hin).
    cbn [fst snd with_type s_properties] in Hall. rewrite Hsub in Hall.
    exact (validate_above_maximum v sub _ m Ht Hm Hgt Hall). }
  split.
  { intros W tool w Hp Hne. unfold Registry.execute. rewrite Hp.
    unfold validate_params. destruct Htype as [-> | ->]; cbn [negb String.eqb];
      destruct (_validate fmt params (with_type "object" parameters) "");
      try contradiction; reflexivity. }
  repeat split.
Qed.

End ValidateFacts.

Lemma validate_params_rejects_witness :
  exists errors,
    ToolBase.validate_params Examples.show
      (Examples.object_of [("count", Examples.bounded_integer 1 10)] ["path"])
      (JObj [("count", JInt 11)]) = Ok errors
    /\ In "missing required path" errors.
Proof.
  destruct (validate_params_rejects Examples.show
              (Examples.object_of [("count", Examples.bounded_integer 1 10)] ["path"])
              (JObj [("count", JInt 11)]) (or_intror eq_refl))
    as (errors & Hv & Hreq & _).
  exists errors. split; [exact Hv|].
  apply (Hreq [("count", JInt 11)] "path" eq_refl); [now left | reflexivity].
Defined.

(** C7 as stated fails twice over: for a tool whose schema is not of type
    "object" no list is returned, a ValueError being raised; and under a
    property that declares a maximum and no type, a number above the maximum
    gives the empty list. *)
Lemma validate_params_counterexample :
  ToolBase.validate_params Examples.show (Examples.typed "string") (JObj [])
  = Raise (ValueError "Schema must be object type, got 'string'")
  /\ ToolBase.validate_params Examples.show Examples.untyped_maximum
       (JObj [("n", JInt 5)]) = Ok [].
Proof. split; reflexivity. Qed.

(** * Further properties *)

(** ** Delivery to the subscribers of the bus *)

Section DeliveryFacts.
Import Events Bus Shape.

Lemma deliver_app (msg : OutboundMessage) (a b : list Callback) :
  deliver msg (a ++ b) = deliver msg a ++ deliver msg b.
Proof.
  induction a as [|cb a IH]; [reflexivity|].
  cbn [deliver app]. destruct (cb_raises cb msg); cbn [app]; now rewrite IH.
Qed.

Lemma invoked_app (a b : list DispatchEvent) :
  invoked (a ++ b) = invoked a ++ invoked b.
Proof.
  induction a as [|[n m|c e] a IH]; cbn [invoked app]; now rewrite ?IH.
Qed.

(** X1.  Delivery calls every subscriber once, in the order of
    subscription and with the message itself, whether or not some of them
    raise; and it logs one error per subscriber that raises, under the
    channel of the message. *)
Theorem deliver_calls_every_subscriber (msg : OutboundMessage)
    (subscribers : list Callback) :
  invoked (deliver msg subscribers)
  = map (fun cb => (cb_name cb, msg)) subscribers
  /\ logged (deliver msg subscribers)
     = omap (fun cb => match cb_raises cb msg with
                       | Some e => Some (out_channel msg, e)
                       | None => None
                       end) subscribers.
Proof.
  induction subscribers as [|cb subs [IH1 IH2]]; [split; reflexivity|].
  cbn [deliver map]. change (omap ?f (cb :: subs)) with
    (match f cb with Some y => y :: omap f subs | None => omap f subs end).
  cbv beta. destruct (cb_raises cb msg) as [e|];
    cbn [invoked logged]; rewrite IH1, IH2; split; reflexivity.
Qed.

(** X2.  A callback subscribed to a channel is called for a message of
    that channel after the callbacks subscribed before it, which are called
    as they were; a message of another channel is delivered as if the
    subscription had not been made. *)
Theorem subscribe_then_dispatch (b : MessageBus) (log : list DispatchEvent)
    (channel : string) (callback : Callback) (msg : OutboundMessage)
    (rest : list OutboundMessage) :
  outbound b = msg :: rest ->
  snd (dispatch_step (subscribe_outbound channel callback b, log))
  = (if String.eqb (out_channel msg) channel
     then snd (dispatch_step (b, log)) ++ deliver msg [callback]
     else snd (dispatch_step (b, log)))
  /\ outbound (fst (dispatch_step (subscribe_outbound channel callback b, log)))
     = rest.
Proof.
  intros Hq. unfold dispatch_step, subscribe_outbound. cbn [outbound
    _outbound_subscribers inbound _running]. rewrite Hq. cbn [fst snd outbound].
  split; [|reflexivity].
  destruct (String.eqb (out_channel msg) channel) eqn:E.
  - apply String.eqb_eq in E. subst channel. rewrite lookup_insert_eq.
    change (default [] (Some ?l)) with l.
    rewrite deliver_app, app_assoc.
    destruct (_outbound_subscribers b !! out_channel msg); reflexivity.
  - apply String.eqb_neq in E. rewrite lookup_insert_ne by congruence.
    reflexivity.
Qed.

Lemma subscribe_then_dispatch_witness :
  invoked
    (snd (dispatch_step
            (subscribe_outbound "telegram"
               {| cb_name := "second"; cb_raises := fun _ => None |}
               (publish_outbound
                  {| out_channel := "telegram"; out_chat_id := "42";
                     out_content := "hi" |}
                  (subscribe_outbound "telegram"
                     {| cb_name := "first";
                        cb_raises := fun _ => Some (OtherError "down") |} init)),
             [])))
  = [("first", {| out_channel := "telegram"; out_chat_id := "42";
                  out_content := "hi" |});
     ("second", {| out_channel := "telegram"; out_chat_id := "42";
                   out_content := "hi" |})].
Proof.
  destruct (subscribe_then_dispatch
              (publish_outbound
                 {| out_channel := "telegram"; out_chat_id := "42";
                    out_content := "hi" |}
                 (subscribe_outbound "telegram"
                    {| cb_name := "first";
                       cb_raises := fun _ => Some (OtherError "down") |} init))
              [] "telegram" {| cb_name := "second"; cb_raises := fun _ => None |}
              {| out_channel := "telegram"; out_chat_id := "42";
                 out_content := "hi" |} [] eq_refl) as [H _].
  rewrite H. reflexivity.
Defined.

Lemma dispatch_outbound_empty (n : nat) (b : MessageBus)
    (log : list DispatchEvent) :
  outbound b = [] -> dispatch_outbound n (b, log) = (b, log).
Proof.
  intros H. induction n as [|n IH]; [reflexivity|].
  cbn [dispatch_outbound]. unfold dispatch_step. rewrite H. exact IH.
Qed.

(** X3.  The dispatch loop takes the outbound messages in the order of
    their publication: after as many passes as there are messages, or more,
    the queue is empty, each message has been delivered in its turn to the
    subscribers of its channel, and the inbound queue and the subscribers
    are as they were. *)
Theorem dispatch_outbound_fifo (n : nat) (b : MessageBus)
    (log : list DispatchEvent) :
  (length (outbound b) <= n)%nat ->
  dispatch_outbound n (b, log)
  = ({| inbound := inbound b; outbound := [];
        _outbound_subscribers := _outbound_subscribers b;
        _running := _running b |},
     log ++ flat_map (fun msg => deliver msg (subscribers_of b msg)) (outbound b)).
Proof.
  revert b log. induction n as [|n IH]; intros b log Hlen.
  - destruct b as [i o s r]. cbn [outbound] in *. destruct o; [|simpl in Hlen; lia].
    cbn. now rewrite app_nil_r.
  - destruct b as [i o s r]. cbn [outbound] in *. destruct o as [|msg rest].
    + rewrite dispatch_outbound_empty by reflexivity. cbn. now rewrite app_nil_r.
    + cbn [dispatch_outbound]. unfold dispatch_step.
      cbn [outbound inbound _outbound_subscribers _running].
      rewrite IH by (cbn [outbound]; simpl in Hlen; lia).
      cbn [inbound outbound _outbound_subscribers _running flat_map].
      unfold subscribers_of. cbn [_outbound_subscribers].
      now rewrite <- app_assoc.
Qed.

Lemma dispatch_outbound_fifo_witness :
  invoked
    (snd (dispatch_outbound 5
            (publish_outbound
               {| out_channel := "telegram"; out_chat_id := "42";
                  out_content := "two" |}
               (publish_outbound
                  {| out_channel := "telegram"; out_chat_id := "42";
                     out_content := "one" |}
                  (subscribe_outbound "telegram"
                     {| cb_name := "send"; cb_raises := fun _ => None |} init)),
             [])))
  = [("send", {| out_channel := "telegram"; out_chat_id := "42";
                 out_content := "one" |});
     ("send", {| out_channel := "telegram"; out_chat_id := "42";
                 out_content := "two" |})].
Proof.
  rewrite dispatch_outbound_fifo by (cbn; lia). reflexivity.
Defined.

End DeliveryFacts.

(** ** Model names and parsed responses of the provider *)

Section ModelFacts.
Import ProviderBase Conversation LiteLLM.

Lemma string_app_assoc (a b c : string) : (a +:+ b) +:+ c = a +:+ b +:+ c.
Proof.
  induction a as [|x a IH]; [reflexivity|].
  rewrite !append_cons. now rewrite IH.
Qed.

Lemma contains_char_cons (x c : ascii) (s : string) :
  PyStr.contains (String x "") (String c s)
  = Ascii.eqb x c || PyStr.contains (String x "") s.
Proof.
  unfold PyStr.contains. cbn [PyStr.find PyStr.startswith].
  rewrite andb_true_r. destruct (Ascii.eqb x c); [reflexivity|].
  cbn [orb]. destruct (PyStr.find (String x "") s); reflexivity.
Qed.

Lemma last_segment_no_slash (s : string) :
  PyStr.contains "/" s = false -> last_segment s = s.
Proof.
  destruct s as [|c s]; [reflexivity|].
  rewrite contains_char_cons. intros H. apply orb_false_elim in H.
  destruct H as [Hc Hs]. cbn [last_segment]. rewrite Hs.
  rewrite Ascii.eqb_sym, Hc. reflexivity.
Qed.

Lemma last_segment_clean (s : string) :
  PyStr.contains "/" (last_segment s) = false.
Proof.
  induction s as [|c s IH]; [reflexivity|].
  cbn [last_segment]. destruct (PyStr.contains "/" s) eqn:Hs; [exact IH|].
  destruct (Ascii.eqb c "/") eqn:Hc; [exact Hs|].
  rewrite contains_char_cons, Ascii.eqb_sym, Hc, Hs. reflexivity.
Qed.

Lemma last_segment_after_slash (a b : string) :
  PyStr.contains "/" b = false -> last_segment (a +:+ "/" +:+ b) = b.
Proof.
  intros Hb. induction a as [|c a IH].
  - rewrite append_nil, append_cons, append_nil. cbn [last_segment].
    rewrite Hb. reflexivity.
  - rewrite append_cons. cbn [last_segment].
    rewrite (contains_char_app "/" a b). exact IH.
Qed.

Lemma startswith_slash_contains (s p : string) :
  PyStr.startswith s (p +:+ "/") = true -> PyStr.contains "/" s = true.
Proof.
  intros H. apply startswith_split in H. destruct H as [t ->].
  rewrite string_app_assoc. apply contains_char_app.
Qed.

Variable find_by_model : string -> option ProviderSpec.

(** X4.  Behind a gateway, the resolved model name begins with the prefix
    of the gateway and a slash when the gateway has a prefix, and resolving
    a resolved name changes nothing: the prefix is not added twice. *)
Theorem resolve_model_gateway (self : LiteLLMProvider) (gateway : ProviderSpec)
    (model : string) :
  _gateway self = Some gateway ->
  (litellm_prefix gateway <> "" ->
   PyStr.startswith (_resolve_model find_by_model self model)
     (litellm_prefix gateway +:+ "/") = true)
  /\ _resolve_model find_by_model self (_resolve_model find_by_model self model)
     = _resolve_model find_by_model self model.
Proof.
  intros Hg. unfold _resolve_model. rewrite Hg.
  set (prefix := litellm_prefix gateway).
  destruct (String.eqb prefix "") eqn:Hp; cbn [negb andb].
  - split; [intros Hne; apply String.eqb_eq in Hp; contradiction|].
    destruct (strip_model_prefix gateway); [|reflexivity].
    apply last_segment_no_slash, last_segment_clean.
  - split.
    + intros _.
      set (m := if strip_model_prefix gateway then last_segment model else model).
      destruct (PyStr.startswith m (prefix +:+ "/")) eqn:Hs;
        cbn [negb]; [exact Hs|].
      rewrite <- string_app_assoc. apply startswith_app.
    + destruct (strip_model_prefix gateway).
      * assert (Hno : PyStr.startswith (last_segment model) (prefix +:+ "/") = false).
        { destruct (PyStr.startswith (last_segment model) (prefix +:+ "/")) eqn:Hs;
            [|reflexivity].
          apply startswith_slash_contains in Hs.
          now rewrite last_segment_clean in Hs. }
        rewrite Hno. cbn [negb].
        rewrite (last_segment_after_slash prefix _ (last_segment_clean model)).
        rewrite Hno. reflexivity.
      * destruct (PyStr.startswith model (prefix +:+ "/")) eqn:Hs; cbn [negb].
        -- rewrite Hs. reflexivity.
        -- rewrite <- (string_app_assoc prefix "/" model), startswith_app.
           reflexivity.
Qed.

Variable json_loads : string -> option Json.

(** X5.  From a completion with a choice, [_parse_response] keeps the tool
    calls of the first choice in their order, each with its id and its name
    unchanged; arguments given as a string are what [json.loads] makes of the
    string, and [{"raw": string}] when it rejects it; arguments given as a
    value are kept.  The finish reason is never empty, "stop" standing for a
    missing one.  From a completion without any choice [chat] still returns:
    the error response for the index error. *)
Theorem parse_response_keeps_tool_calls (response : RawResponse) :
  (forall choice others,
     choices response = choice :: others ->
     exists r,
       _parse_response json_loads response = Ok r
       /\ content r = rm_content (rc_message choice)
       /\ Forall2
            (fun raw tc =>
               tc_id tc = rtc_id raw /\ tc_name tc = rtc_name raw
               /\ tc_arguments tc =
                  match rtc_arguments raw with
                  | ArgsStr s => default (JObj [("raw", JStr s)]) (json_loads s)
                  | ArgsValue j => j
                  end)
            (default [] (rm_tool_calls (rc_message choice))) (tool_calls r)
       /\ finish_reason r <> ""
       /\ (forall reason, rc_finish_reason choice = Some reason -> reason <> "" ->
             finish_reason r = reason))
  /\ (choices response = [] ->
      forall self acompletion messages tools model max_tokens temperature,
        acompletion (build_kwargs find_by_model self messages tools model
                       max_tokens temperature) = Ok response ->
        chat find_by_model json_loads self acompletion messages tools model
             max_tokens temperature
        = Ok (error_response (OtherError "list index out of range"))).
Proof.
  split.
  - intros choice others Hc. unfold _parse_response. rewrite Hc.
    eexists. split; [reflexivity|]. cbn [content tool_calls finish_reason].
    split; [reflexivity|]. split; [|split].
    + destruct (rm_tool_calls (rc_message choice)) as [tcs|]; cbn [default];
        [|constructor].
      induction tcs as [|raw tcs IH]; cbn [map]; constructor; [|exact IH].
      unfold parse_tool_call. cbn [tc_id tc_name tc_arguments].
      repeat split.
    + destruct (rc_finish_reason choice) as [reason|]; [|discriminate].
      destruct (String.eqb reason "") eqn:E; [discriminate|].
      now apply String.eqb_neq in E.
    + intros reason -> Hne. apply String.eqb_neq in Hne. now rewrite Hne.
  - intros Hc self acompletion messages tools model max_tokens temperature Ha.
    unfold chat. rewrite Ha. unfold _parse_response. rewrite Hc. reflexivity.
Qed.

End ModelFacts.

Lemma resolve_model_gateway_witness :
  LiteLLM._resolve_model (fun _ => None)
    {| LiteLLM.api_base := None;
       LiteLLM.default_model := "anthropic/claude-opus-4-5";
       LiteLLM.extra_headers := [];
       LiteLLM._gateway :=
         Some {| LiteLLM.litellm_prefix := "openrouter";
                 LiteLLM.skip_prefixes := [];
                 LiteLLM.strip_model_prefix := false;
                 LiteLLM.model_overrides := [] |} |}
    (LiteLLM._resolve_model (fun _ => None)
       {| LiteLLM.api_base := None;
          LiteLLM.default_model := "anthropic/claude-opus-4-5";
          LiteLLM.extra_headers := [];
          LiteLLM._gateway :=
            Some {| LiteLLM.litellm_prefix := "openrouter";
                    LiteLLM.skip_prefixes := [];
                    LiteLLM.strip_model_prefix := false;
                    LiteLLM.model_overrides := [] |} |}
       "anthropic/claude-opus-4-5")
  = "openrouter/anthropic/claude-opus-4-5".
Proof.
  match goal with
  | |- LiteLLM._resolve_model ?f ?self (LiteLLM._resolve_model _ _ ?m) = _ =>
      rewrite (proj2 (resolve_model_gateway f self _ m eq_refl))
  end.
  reflexivity.
Defined.

Lemma parse_response_keeps_tool_calls_witness :
  exists r,
    LiteLLM._parse_response (fun _ => None)
      {| LiteLLM.choices :=
           [{| LiteLLM.rc_message :=
                 {| LiteLLM.rm_content := None;
                    LiteLLM.rm_tool_calls :=
                      Some [{| LiteLLM.rtc_id := "call_1";
                               LiteLLM.rtc_name := "read_file";
                               LiteLLM.rtc_arguments := LiteLLM.ArgsStr "{path" |}];
                    LiteLLM.rm_reasoning_content := None |};
               LiteLLM.rc_finish_reason := None |}];
         LiteLLM.raw_usage := None |} = Ok r
    /\ ProviderBase.tool_calls r
       = [{| ProviderBase.tc_id := "call_1"; ProviderBase.tc_name := "read_file";
             ProviderBase.tc_arguments := JObj [("raw", JStr "{path")] |}]
    /\ ProviderBase.finish_reason r = "stop".
Proof.
  destruct (parse_response_keeps_tool_calls (fun _ => None) (fun _ => None)
              {| LiteLLM.choices :=
                   [{| LiteLLM.rc_message :=
                         {| LiteLLM.rm_content := None;
                            LiteLLM.rm_tool_calls :=
                              Some [{| LiteLLM.rtc_id := "call_1";
                                       LiteLLM.rtc_name := "read_file";
                                       LiteLLM.rtc_arguments := LiteLLM.ArgsStr "{path" |}];
                            LiteLLM.rm_reasoning_content := None |};
                       LiteLLM.rc_finish_reason := None |}];
                 LiteLLM.raw_usage := None |}) as [H _].
  destruct (H _ _ eq_refl) as (r & Hr & _).
  exists r. split; [exact Hr|]. injection Hr as <-. split; reflexivity.
Defined.

(** ** What an accepted argument satisfies *)

Section AcceptanceFacts.
Import ToolBase Shape.

Variable fmt : Json -> string.

(** The violations of a value, part by part. *)
Lemma validate_parts (val : Json) (schema : Schema) (path : string) :
  _validate fmt val schema path =
  let t := s_type schema in
  let label := if String.eqb path "" then "parameter" else path in
  if type_mismatch t val then [label +:+ " should be " +:+ default "" t]
  else
    enum_errors fmt label schema val
    ++ range_errors fmt label schema val
    ++ length_errors fmt label schema val
    ++ (if type_is t "object" then
          match val with
          | JObj fields =>
              required_errors path (default [] (s_required schema)) fields
              ++ flat_map
                   (fun kv =>
                      match assoc (fst kv) (default [] (s_properties schema)) with
                      | Some sub =>
                          _validate fmt (snd kv) sub (child_path path (fst kv))
                      | None => []
                      end) fields
          | _ => []
          end
        else [])
    ++ (if type_is t "array" then
          match s_items schema, val with
          | Some sub, JArr items =>
              items_errors (fun i x => _validate fmt x sub (item_path path i))
                           0 items
          | _, _ => []
          end
        else []).
Proof.
  cbv zeta. destruct val as [| b | z | q | s | items | fields];
    cbn [_validate]; try reflexivity.
  - destruct (type_mismatch (s_type schema) (JArr items)); [reflexivity|].
    do 4 f_equal. destruct (type_is (s_type schema) "array"); [|reflexivity].
    destruct (s_items schema) as [sub|]; [|reflexivity].
    generalize 0%nat. induction items as [|x items IH]; intros i; [reflexivity|].
    cbn [items_errors]. now rewrite IH.
  - destruct (type_mismatch (s_type schema) (JObj fields)); [reflexivity|].
    do 3 f_equal. f_equal.
    destruct (type_is (s_type schema) "object"); [|reflexivity]. f_equal.
    induction fields as [|[k v] fields IH]; [reflexivity|].
    cbn [flat_map fst snd]. now rewrite IH.
Qed.

Lemma required_errors_nil (path : string) (required : list string)
    (fields : list (string * Json)) :
  required_errors path required fields = [] ->
  forall k, In k required -> assoc k fields <> None.
Proof.
  induction required as [|k' required IH]; [contradiction|].
  cbn [required_errors]. intros H. apply app_eq_nil in H. destruct H as [Hk Hr].
  intros k [<- | Hin].
  - destruct (assoc k' fields); [discriminate | discriminate].
  - now apply IH.
Qed.

Lemma items_errors_nil (check : nat -> Json -> list string) (items : list Json) :
  forall start,
    items_errors check start items = [] ->
    forall i x, nth_error items i = Some x -> check (start + i)%nat x = [].
Proof.
  induction items as [|y items IH]; intros start H i x Hi.
  - destruct i; discriminate.
  - cbn [items_errors] in H. apply app_eq_nil in H. destruct H as [Hy Hrest].
    destruct i as [|i].
    + injection Hi as <-. now rewrite Nat.add_0_r.
    + rewrite Nat.add_succ_r. apply (IH (S start) Hrest i x Hi).
Qed.

(** X6.  A value on which [_validate] finds no violation satisfies the
    schema as far as the code checks it: its type is the declared one, it is
    one of the enum, a number lies within the minimum and the maximum, a
    string has a length within the bounds, a dict of an object schema has
    every required key and each of its fields that has a declared property
    is itself without violation under that property, and each item of a list
    of an array schema is without violation under the schema of the
    items. *)
Theorem validate_accepted_satisfies (val : Json) (schema : Schema) (path : string) :
  _validate fmt val schema path = [] ->
  type_mismatch (s_type schema) val = false
  /\ (forall enum, s_enum schema = Some enum -> existsb (py_eq val) enum = true)
  /\ (type_is (s_type schema) "integer" || type_is (s_type schema) "number" = true ->
      (forall m, s_minimum schema = Some m -> num_lt val m = false)
      /\ (forall m, s_maximum schema = Some m -> num_gt val m = false))
  /\ (type_is (s_type schema) "string" = true ->
      forall s, val = JStr s ->
        (forall n, s_minLength schema = Some n -> (n <= Z.of_nat (PyStr.len s))%Z)
        /\ (forall n, s_maxLength schema = Some n -> (Z.of_nat (PyStr.len s) <= n)%Z))
  /\ (type_is (s_type schema) "object" = true ->
      forall fields, val = JObj fields ->
        (forall k, In k (default [] (s_required schema)) -> assoc k fields <> None)
        /\ (forall k v sub,
              In (k, v) fields ->
              assoc k (default [] (s_properties schema)) = Some sub ->
              _validate fmt v sub (child_path path k) = []))
  /\ (type_is (s_type schema) "array" = true ->
      forall items sub, val = JArr items -> s_items schema = Some sub ->
        forall i x, nth_error items i = Some x ->
          _validate fmt x sub (item_path path i) = []).
Proof.
  rewrite validate_parts. cbv zeta.
  destruct (type_mismatch (s_type schema) val); [discriminate|].
  intros H. apply app_eq_nil in H. destruct H as [Henum H].
  apply app_eq_nil in H. destruct H as [Hrange H].
  apply app_eq_nil in H. destruct H as [Hlen H].
  apply app_eq_nil in H. destruct H as [Hobj Harr].
  split; [reflexivity|]. split; [|split; [|split; [|split]]].
  - intros enum He. unfold enum_errors in Henum. rewrite He in Henum.
    destruct (existsb (py_eq val) enum); [reflexivity | discriminate].
  - intros Ht. unfold range_errors in Hrange. rewrite Ht in Hrange.
    apply app_eq_nil in Hrange. destruct Hrange as [Hmin Hmax]. split.
    + intros m Hm. rewrite Hm in Hmin.
      destruct (num_lt val m); [discriminate | reflexivity].
    + intros m Hm. rewrite Hm in Hmax.
      destruct (num_gt val m); [discriminate | reflexivity].
  - intros Ht s ->. unfold length_errors in Hlen. rewrite Ht in Hlen.
    apply app_eq_nil in Hlen. destruct Hlen as [Hmin Hmax]. split.
    + intros n Hn. rewrite Hn in Hmin.
      destruct (Z.ltb_spec (Z.of_nat (PyStr.len s)) n); [discriminate | lia].
    + intros n Hn. rewrite Hn in Hmax.
      destruct (Z.ltb_spec n (Z.of_nat (PyStr.len s))); [discriminate | lia].
  - intros Ht fields ->. rewrite Ht in Hobj.
    apply app_eq_nil in Hobj. destruct Hobj as [Hreq Hfields]. split.
    + apply (required_errors_nil _ _ _ Hreq).
    + intros k v sub Hin Hsub.
      pose proof (flat_map_empty _ _ (k, v) Hfields Hin) as Hkv.
      cbn [fst snd] in Hkv. now rewrite Hsub in Hkv.
  - intros Ht items sub -> Hsub i x Hi. rewrite Ht, Hsub in Harr.
    apply (items_errors_nil _ _ 0%nat Harr i x Hi).
Qed.

Lemma assoc_app_other {A : Type} (k k' : string) (v : A)
    (fields : list (string * A)) :
  k' <> k -> assoc k' (fields ++ [(k, v)]) = assoc k' fields.
Proof.
  intros Hne. induction fields as [|[k0 v0] fields IH]; cbn [assoc app].
  - apply String.eqb_neq in Hne. now rewrite Hne.
  - destruct (String.eqb k' k0); [reflexivity | exact IH].
Qed.

Lemma required_errors_app_other (path : string) (required : list string)
    (fields : list (string * Json)) (k : string) (v : Json) :
  ~ In k required ->
  required_errors path required (fields ++ [(k, v)])
  = required_errors path required fields.
Proof.
  induction required as [|k' required IH]; [reflexivity|].
  intros Hnot. cbn [required_errors].
  rewrite assoc_app_other by (intros ->; apply Hnot; now left).
  rewrite IH; [reflexivity|]. intros Hin. apply Hnot. now right.
Qed.

(** X7.  A key for which the schema declares no property is not looked
    at: adding a field under such a key, when the key is not required and the
    schema has no enum, leaves the outcome of [validate_params] as it was. *)
Theorem validate_ignores_undeclared (parameters : Schema)
    (fields : list (string * Json)) (k : string) (v : Json) :
  s_enum parameters = None ->
  assoc k (default [] (s_properties parameters)) = None ->
  ~ In k (default [] (s_required parameters)) ->
  validate_params fmt parameters (JObj (fields ++ [(k, v)]))
  = validate_params fmt parameters (JObj fields).
Proof.
  intros Henum Hprop Hreq.
  assert (H : _validate fmt (JObj (fields ++ [(k, v)])) (with_type "object" parameters) ""
              = _validate fmt (JObj fields) (with_type "object" parameters) "").
  { rewrite !validate_object by reflexivity.
    unfold enum_errors. cbn [with_type s_enum s_required s_properties].
    rewrite Henum, (required_errors_app_other _ _ _ _ _ Hreq), flat_map_app.
    cbn [flat_map fst snd]. rewrite Hprop. now rewrite !app_nil_r. }
  unfold validate_params. now rewrite H.
Qed.

End AcceptanceFacts.

Lemma validate_accepted_satisfies_witness :
  ToolBase._validate Examples.show (JInt 5) (Examples.bounded_integer 1 10) "count"
  = []
  /\ ToolBase.num_gt (JInt 5) (ToolBase.NInt 10) = false.
Proof.
  destruct (validate_accepted_satisfies Examples.show
              (JObj [("count", JInt 5)])
              (Examples.object_of [("count", Examples.bounded_integer 1 10)] ["count"])
              "" eq_refl) as (_ & _ & _ & _ & Hobj & _).
  destruct (Hobj eq_refl _ eq_refl) as [_ Hfield].
  pose proof (Hfield "count" (JInt 5) _ (or_introl eq_refl) eq_refl) as Hcount.
  split; [exact Hcount|].
  destruct (validate_accepted_satisfies Examples.show (JInt 5)
              (Examples.bounded_integer 1 10) "count" Hcount)
    as (_ & _ & Hrange & _).
  destruct (Hrange eq_refl) as [_ Hmax]. apply Hmax. reflexivity.
Defined.

Lemma validate_ignores_undeclared_witness :
  ToolBase.validate_params Examples.show
    (Examples.object_of [("path", Examples.typed "string")] ["path"])
    (JObj [("path", JStr "a"); ("verbose", JBool true)])
  = Ok [].
Proof.
  change [("path", JStr "a"); ("verbose", JBool true)]
    with ([("path", JStr "a")] ++ [("verbose", JBool true)]).
  rewrite (validate_ignores_undeclared Examples.show
             (Examples.object_of [("path", Examples.typed "string")] ["path"])
             [("path", JStr "a")] "verbose" (JBool true) eq_refl eq_refl).
  - reflexivity.
  - intros [H | []]. discriminate.
Defined.

(** ** Writing, reading and editing files *)

Section FileFacts.
Import Filesystem Observe.

Variable expanduser : string -> string.
Variable resolve : string -> string.

Lemma mkdir_all_keeps (dirs : list string) :
  forall (fs : gmap string Node) (p : string) (n : Node),
    fs !! p = Some n -> snd (mkdir_all fs dirs) !! p = Some n.
Proof.
  induction dirs as [|d dirs IH]; intros fs p n Hp; [exact Hp|].
  cbn [mkdir_all]. destruct (fs !! d) as [[c|]|] eqn:Hd.
  - exact Hp.
  - now apply IH.
  - apply IH. rewrite lookup_insert_ne; [exact Hp|]. congruence.
Qed.

Lemma write_text_keeps (fs : gmap string Node) (p content p' : string) (n : Node) :
  p' <> p -> fs !! p' = Some n -> snd (write_text fs p content) !! p' = Some n.
Proof.
  intros Hne Hp. unfold write_text.
  destruct (fs !! p) as [[c|]|]; cbn [snd];
    rewrite ?lookup_insert_ne by congruence; exact Hp.
Qed.

(** X8.  Whatever its outcome, [WriteFileTool.execute] leaves every entry
    of the file system other than the resolved path as it was: files keep
    their content, directories stay directories, nothing is removed. *)
Theorem write_keeps_other_entries (allowed_dir : option string)
    (path content : string) (fs : gmap string Node) (p : string) (n : Node) :
  fs !! p = Some n ->
  p <> resolve (expanduser path) ->
  snd (WriteFileTool_execute expanduser resolve allowed_dir path content fs) !! p
  = Some n.
Proof.
  intros Hp Hne. unfold WriteFileTool_execute, _resolve_path.
  assert (Hmk : forall dir, snd (mkdir_parents fs dir) !! p = Some n)
    by (intros dir; now apply mkdir_all_keeps).
  assert (Hbody :
    snd (match mkdir_parents fs (parent (resolve (expanduser path))) with
         | (Raise e, fs1) => (except "错误：" "写入文件时出错：" e, fs1)
         | (Ok _, fs1) =>
             match write_text fs1 (resolve (expanduser path)) content with
             | (Raise e, fs2) => (except "错误：" "写入文件时出错：" e, fs2)
             | (Ok _, fs2) =>
                 ("成功写入 " +:+ PyStr.of_nat (PyStr.len content) +:+ " 字节到 " +:+ path,
                  fs2)
             end
         end) !! p = Some n).
  { specialize (Hmk (parent (resolve (expanduser path)))).
    destruct (mkdir_parents fs (parent (resolve (expanduser path)))) as [[u|e] fs1];
      cbn [snd] in Hmk |- *; [|exact Hmk].
    pose proof (write_text_keeps fs1 (resolve (expanduser path)) content p n Hne Hmk)
      as Hw.
    destruct (write_text fs1 (resolve (expanduser path)) content) as [[u2|e] fs2];
      exact Hw. }
  destruct allowed_dir as [dir|]; [|exact Hbody].
  destruct (negb (PyStr.startswith (resolve (expanduser path)) (resolve dir)));
    [exact Hp | exact Hbody].
Qed.





Lemma startswith_refl (s : string) : PyStr.startswith s s = true.
Proof.
  induction s as [|c s IH]; [reflexivity|].
  cbn [PyStr.startswith]. now rewrite Ascii.eqb_refl.
Qed.

(** X11.  A path within the allowed directory, the directory itself
    included, is admitted by [_resolve_path]. *)
Theorem resolve_path_admits_within (path dir : string) :
  is_within (resolve dir) (resolve (expanduser path)) = true ->
  _resolve_path expanduser resolve path (Some dir)
  = Ok (resolve (expanduser path)).
Proof.
  unfold is_within, _resolve_path. intros H.
  assert (Hs : PyStr.startswith (resolve (expanduser path)) (resolve dir) = true).
  { apply orb_true_iff in H. destruct H as [H | H].
    - apply String.eqb_eq in H. rewrite H. apply startswith_refl.
    - apply startswith_split in H. destruct H as [t ->].
      rewrite string_app_assoc. apply startswith_app. }
  now rewrite Hs.
Qed.

End FileFacts.

Lemma write_keeps_other_entries_witness :
  snd (Filesystem.WriteFileTool_execute (fun p => p) (fun p => p) (Some "/ws") "/ws/a/b.txt"
         "new" {["/ws/notes.md" := Filesystem.File "keep"]}) !! "/ws/notes.md"
  = Some (Filesystem.File "keep").
Proof.
  apply (write_keeps_other_entries (fun p => p) (fun p => p) (Some "/ws")
           "/ws/a/b.txt" "new" {["/ws/notes.md" := Filesystem.File "keep"]} "/ws/notes.md"
           (Filesystem.File "keep")); [reflexivity | discriminate].
Defined.


Lemma resolve_path_admits_within_witness :
  Filesystem._resolve_path (fun p => p) (fun p => p) "/ws/a/b.txt" (Some "/ws")
  = Ok "/ws/a/b.txt".
Proof.
  apply (resolve_path_admits_within (fun p => p) (fun p => p) "/ws/a/b.txt" "/ws").
  reflexivity.
Defined.

(** ** The message list of a turn *)

Section ShapeFacts.
Import Events ProviderBase Conversation Tools Sessions Runtime Turn Observe Shape.

Context {W : Type} (env : Env W).

Lemma run_tool_calls_cons (tools : list (string * Tool)) (tc : ToolCallRequest)
    (calls : list ToolCallRequest) (messages : list ChatMessage) (st : State W) :
  run_tool_calls env tools (tc :: calls) messages st =
  match tools_execute env tools (contexts st) (tc_name tc) (tc_arguments tc)
          (world st) with
  | (Ok result, w) =>
      run_tool_calls env tools calls
        (add_tool_result messages (tc_id tc) (tc_name tc) result)
        (set_world w [ToolRun (tc_name tc) (tc_arguments tc) (Ok result)] st)
  | (Raise e, w) =>
      (Raise e, set_world w [ToolRun (tc_name tc) (tc_arguments tc) (Raise e)] st)
  end.
Proof.
  cbn [run_tool_calls]. unfold bind, execute.
  destruct (tools_execute env tools (contexts st) (tc_name tc) (tc_arguments tc)
              (world st)) as [[result|e] w]; reflexivity.
Qed.

(** X12.  The tool calls of a response are run one after the other in the
    order offered.  When none raises, each call has run once and the message
    list has gained one tool entry per call, in that order, with the id and
    the name of the call and the result of its run.  When one raises, the
    calls before it have run, it is the last that ran, and the exception
    leaves the loop. *)
Theorem tool_calls_run_in_order (tools : list (string * Tool))
    (calls : list ToolCallRequest) (messages : list ChatMessage) (st : State W) :
  exists results,
    (length results <= length calls)%nat
    /\ match fst (run_tool_calls env tools calls messages st) with
       | Ok messages' =>
           length results = length calls
           /\ messages' = messages ++ tool_entries calls results
           /\ log (snd (run_tool_calls env tools calls messages st))
              = log st ++ tool_events calls (map Ok results)
       | Raise e =>
           (length results < length calls)%nat
           /\ log (snd (run_tool_calls env tools calls messages st))
              = log st ++ tool_events calls (map Ok results ++ [Raise e])
       end.
Proof.
  revert messages st. induction calls as [|tc calls IH]; intros messages st.
  - exists []. cbn. rewrite !app_nil_r. auto.
  - rewrite run_tool_calls_cons.
    destruct (tools_execute env tools (contexts st) (tc_name tc) (tc_arguments tc)
                (world st)) as [[result|e] w].
    + set (st1 := set_world w _ st).
      destruct (IH (add_tool_result messages (tc_id tc) (tc_name tc) result) st1)
        as (results & Hle & Hrest).
      exists (result :: results). split; [simpl; lia|].
      destruct (fst (run_tool_calls env tools calls _ st1)) as [messages'|e].
      * destruct Hrest as (Hlen & Hm & Hlog). split; [simpl; lia|]. split.
        -- rewrite Hm. unfold add_tool_result. cbn [tool_entries].
           now rewrite <- app_assoc.
        -- rewrite Hlog. unfold st1. cbn [log set_world map tool_events].
           now rewrite <- app_assoc.
      * destruct Hrest as (Hlen & Hlog). split; [simpl; lia|].
        rewrite Hlog. unfold st1. cbn [log set_world map tool_events app].
        now rewrite <- app_assoc.
    + exists []. cbn [fst snd length map app tool_events log set_world].
      split; [lia|]. split; [lia|].
      destruct calls; reflexivity.
Qed.

Lemma run_tool_calls_entries (tools : list (string * Tool))
    (calls : list ToolCallRequest) (messages messages' : list ChatMessage)
    (st : State W) :
  fst (run_tool_calls env tools calls messages st) = Ok messages' ->
  exists results,
    length results = length calls
    /\ messages' = messages ++ tool_entries calls results.
Proof.
  revert messages st. induction calls as [|tc calls IH]; intros messages st.
  - intros [= <-]. exists []. cbn. now rewrite app_nil_r.
  - rewrite run_tool_calls_cons.
    destruct (tools_execute env tools (contexts st) (tc_name tc) (tc_arguments tc)
                (world st)) as [[result|e] w]; [|discriminate].
    intros H. destruct (IH _ _ H) as (results & Hlen & Hm).
    exists (result :: results). split; [simpl; lia|].
    rewrite Hm. unfold add_tool_result. cbn [tool_entries].
    now rewrite <- app_assoc.
Qed.

(** The rounds of a loop whose assistant entries are appended one at a
    time. *)
Lemma tool_loop_rounds
    (add : list ChatMessage -> LLMResponse -> list ChatMessage)
    (entry : LLMResponse -> ChatMessage)
    (tools : list (string * Tool)) (model : string) (remaining : nat) :
  (forall messages response, add messages response = messages ++ [entry response]) ->
  forall (it : nat) (messages : list ChatMessage) (st : State W) (exit : LoopExit),
    fst (tool_loop env add tools model remaining it messages st) = Ok exit ->
    exists rounds,
      Forall complete_round rounds
      /\ final_messages exit = messages ++ round_entries entry rounds
      /\ (length rounds <= remaining)%nat.
Proof.
  intros Hadd. induction remaining as [|remaining IH]; intros it messages st exit.
  - intros [= <-]. exists []. cbn. rewrite app_nil_r. auto.
  - rewrite tool_loop_step.
    destruct (provider_chat env messages (get_definitions tools) model (world st))
      as [[response|e] w]; [|discriminate].
    cbv zeta. destruct (has_tool_calls response) eqn:Htc.
    + destruct (run_tool_calls env tools (tool_calls response)
                  (add messages response) _) as [[messages'|e] st2] eqn:Hrun;
        [|discriminate].
      intros Hloop.
      assert (Hfst : fst (run_tool_calls env tools (tool_calls response)
                            (add messages response)
                            (set_world w [LlmCall messages (Ok response)] st))
                     = Ok messages') by now rewrite Hrun.
      destruct (run_tool_calls_entries _ _ _ _ _ Hfst) as (results & Hlen & Hm).
      destruct (IH _ _ _ _ Hloop) as (rounds & Hall & Hfinal & Hn).
      exists ((response, results) :: rounds). split; [|split].
      * constructor; [split; assumption | exact Hall].
      * rewrite Hfinal, Hm, Hadd. cbn [round_entries].
        rewrite <- !app_assoc. reflexivity.
      * simpl. lia.
    + intros [= <-]. exists []. cbn. rewrite app_nil_r.
      split; [constructor|]. split; [reflexivity | lia].
Qed.

Lemma tool_call_dicts_ids (response : LLMResponse) :
  map tcd_id (tool_call_dicts env response) = map tc_id (tool_calls response)
  /\ map tcd_name (tool_call_dicts env response) = map tc_name (tool_calls response).
Proof.
  unfold tool_call_dicts. rewrite !map_map. split; reflexivity.
Qed.

Lemma tool_entries_ids (calls : list ToolCallRequest) (results : list string) :
  length results = length calls ->
  map (fun m => match m with
                | MsgTool id _ _ => id
                | _ => ""
                end) (tool_entries calls results) = map tc_id calls.
Proof.
  revert results. induction calls as [|tc calls IH]; intros [|r results] H;
    try discriminate; [reflexivity|].
  cbn [tool_entries map]. f_equal. apply IH. simpl in H. lia.
Qed.

(** X13.  At the end of the loop of a turn of the agent, the message list
    is the list the loop began with, followed round by round by the assistant
    entry of a response that offered tool calls and one tool entry per
    offered call; the assistant entry records the offers with the ids and the
    names of the calls, and the tool entries carry the same ids in the same
    order.  There are at most max_iterations rounds. *)
Theorem agent_loop_message_list (self : AgentLoop.AgentLoop)
    (messages : list ChatMessage) (st : State W) (exit : LoopExit) :
  fst (AgentLoop.agent_loop env self messages st) = Ok exit ->
  exists rounds,
    final_messages exit = messages ++ round_entries (agent_entry env) rounds
    /\ (length rounds <= Z.to_nat (AgentLoop.max_iterations self))%nat
    /\ Forall
         (fun round =>
            exists c r,
              agent_entry env (fst round)
              = MsgAssistant c (Some (tool_call_dicts env (fst round))) r
              /\ map tcd_id (tool_call_dicts env (fst round))
                 = map tc_id (tool_calls (fst round))
              /\ map (fun m => match m with
                               | MsgTool id _ _ => id
                               | _ => ""
                               end)
                     (tool_entries (tool_calls (fst round)) (snd round))
                 = map tc_id (tool_calls (fst round)))
         rounds.
Proof.
  intros H. unfold AgentLoop.agent_loop in H.
  assert (Hadd : forall m r,
             AgentLoop.add_assistant env m r = m ++ [agent_entry env r]).
  { intros m r. unfold AgentLoop.add_assistant, add_assistant_message, agent_entry.
    destruct (tool_call_dicts env r); reflexivity. }
  destruct (tool_loop_rounds (AgentLoop.add_assistant env) (agent_entry env)
              _ _ _ Hadd _ _ _ _ H)
    as (rounds & Hall & Hfinal & Hn).
  exists rounds. split; [exact Hfinal|]. split; [exact Hn|].
  eapply Forall_impl; [exact Hall|].
  intros [response results] [Htc Hlen]. cbn [fst snd] in *.
  unfold agent_entry. destruct (tool_call_dicts_ids response) as [Hids _].
  destruct (tool_call_dicts env response) as [|d dicts] eqn:Hd.
  - unfold has_tool_calls in Htc. destruct (tool_calls response); [discriminate|].
    discriminate Hids.
  - do 2 eexists. split; [reflexivity|]. split; [exact Hids|].
    now apply tool_entries_ids.
Qed.

End ShapeFacts.

Lemma agent_loop_message_list_witness :
  exists exit rounds,
    fst (AgentLoop.agent_loop Scenario.tool_env Examples.agent
           [Conversation.MsgSystem "p"] Scenario.start) = Ok exit
    /\ length (Turn.final_messages exit) = 3%nat
    /\ Turn.final_messages exit
       = [Conversation.MsgSystem "p"]
         ++ Shape.round_entries (Shape.agent_entry Scenario.tool_env) rounds.
Proof.
  assert (H : exists exit,
             fst (AgentLoop.agent_loop Scenario.tool_env Examples.agent
                    [Conversation.MsgSystem "p"] Scenario.start) = Ok exit
             /\ length (Turn.final_messages exit) = 3%nat)
    by (eexists; split; vm_compute; reflexivity).
  destruct H as (exit & H & Hlen).
  destruct (agent_loop_message_list _ _ _ _ _ H) as (rounds & Hfinal & _).
  exists exit, rounds. auto.
Defined.

(** ** The agent loop around a turn *)

Section AroundTurn.
Import Events ProviderBase Conversation Tools Sessions Runtime Turn Observe Shape.
Import AgentLoop.

Context {W : Type} (env : Env W).

(** The tool contexts after a turn are those set before it. *)
Lemma turn_body_contexts (self : AgentLoop) (k channel chat_id : string)
    (media : option (list string)) (content user_text fallback : string)
    (st : State W) :
  contexts (snd (turn_body env self k channel chat_id media content user_text
                   fallback st))
  = contexts (snd (update_tool_contexts self channel chat_id st)).
Proof.
  unfold turn_body, bind, get_or_create, update_tool_contexts, build_messages,
    save, ret.
  destruct (Sessions.get_or_create k (sessions st)) as [session store0].
  cbv beta iota zeta.
  match goal with
  | |- context [agent_loop env self ?m ?s] =>
      destruct (agent_loop_spec env self m s) as (evs & _ & (_ & _ & Hctx) & _);
      destruct (agent_loop env self m s) as [[exit|e] st2]
  end; simpl in Hctx |- *; exact Hctx.
Qed.

Lemma process_message_address (self : AgentLoop) (msg : InboundMessage) :
  exists k media content user_text fallback,
    _process_message env self msg =
    turn_body env self k (fst (address_of msg)) (snd (address_of msg)) media
      content user_text fallback.
Proof.
  unfold address_of. destruct (String.eqb (in_channel msg) "system") eqn:E.
  - unfold _process_message. rewrite E, process_system_message_body.
    do 5 eexists. reflexivity.
  - rewrite (process_message_body env self msg E). do 5 eexists. reflexivity.
Qed.

(** X14.  After a message has been processed by an agent with the default
    tools, whether processing ended or raised, the message tool and the spawn
    tool are addressed to the channel and the chat of the turn (the origin,
    for a system message); the cron tool is too when the agent has one, and
    its context is untouched when it has none. *)
Theorem turn_addresses_tools (settings : ToolSettings) (model : string)
    (max_iterations : Z) (cron : bool) (msg : InboundMessage) (st : State W) :
  let st' := snd (_process_message env (new settings model max_iterations cron)
                    msg st) in
  message_context (contexts st') = Some (address_of msg)
  /\ spawn_context (contexts st') = Some (address_of msg)
  /\ cron_context (contexts st')
     = if cron then Some (address_of msg) else cron_context (contexts st).
Proof.
  cbv zeta.
  destruct (process_message_address (new settings model max_iterations cron) msg)
    as (k & media & content & user_text & fallback & Hbody).
  rewrite Hbody, turn_body_contexts.
  destruct (address_of msg) as [channel chat_id]. cbn [fst snd].
  unfold update_tool_contexts. cbn [new tools]. rewrite default_tools_eq.
  destruct cron; repeat split.
Qed.

(** X15.  A pass of [run] that takes a message puts a reply at the end of
    the outbound queue: the response of the turn when processing ended, and
    when processing raised, an apology that quotes the exception and is
    addressed to the channel and the chat_id of the message as it came (for
    a system message, to the channel "system" itself). *)
Theorem run_step_always_replies (self : AgentLoop) (st : State W)
    (msg : InboundMessage) (rest : list InboundMessage) :
  Bus.inbound (bus st) = msg :: rest ->
  let taken :=
    set_bus {| Bus.inbound := rest; Bus.outbound := Bus.outbound (bus st);
               Bus._outbound_subscribers := Bus._outbound_subscribers (bus st);
               Bus._running := Bus._running (bus st) |} st in
  exists reply,
    last (Bus.outbound (bus (run_step env self st))) = Some reply
    /\ match fst (_process_message env self msg taken) with
       | Ok response => response = Some reply
       | Raise e => reply = apology msg e
       end.
Proof.
  intros Hin. cbv zeta. unfold run_step. rewrite Hin.
  match goal with
  | |- context [_process_message env self msg ?s] => set (taken := s)
  end.
  destruct (process_message_turn env self msg)
    as (channel & chat_id & media & content & user_text & fallback & Hbody).
  destruct (_process_message env self msg taken) as [[response|e] st1] eqn:Hrun.
  - rewrite Hbody in Hrun.
    destruct (turn_body_spec env self _ _ _ _ _ _ _ _ _ _ Hrun)
      as (evs & _ & _ & _ & Hout & _).
    destruct (Hout response eq_refl) as (-> & _).
    eexists. split; [|reflexivity].
    unfold publish_outbound. cbn [snd set_bus bus Bus.publish_outbound Bus.outbound].
    apply last_snoc.
  - eexists. split; [|reflexivity].
    unfold publish_outbound. cbn [snd set_bus bus Bus.publish_outbound Bus.outbound].
    apply last_snoc.
Qed.

(** X16.  [process_direct] for a channel other than "system" returns the
    text of the assistant entry that the turn appends, after the user entry
    holding the content, to the session named by the channel and the chat_id;
    the session_key it is given does not choose the session: every other
    session, the one named by session_key among them, is left as it was. *)
Theorem process_direct_session (self : AgentLoop)
    (content session_key channel chat_id : string) (st : State W)
    (text : string) (st' : State W) :
  String.eqb channel "system" = false ->
  store_ok (sessions st) ->
  Direct.process_direct env self content session_key channel chat_id st
  = (Ok text, st') ->
  history_of (sessions st') (channel +:+ ":" +:+ chat_id)
  = history_of (sessions st) (channel +:+ ":" +:+ chat_id)
    ++ [{| role := "user"; entry_content := content |};
        {| role := "assistant"; entry_content := text |}]
  /\ forall k, k <> channel +:+ ":" +:+ chat_id ->
       history_of (sessions st') k = history_of (sessions st) k.
Proof.
  intros Hch Hstore. unfold Direct.process_direct, bind, ret.
  rewrite process_message_body by exact Hch.
  cbn [in_channel in_chat_id in_content in_media Events.session_key
       in_session_key_override].
  match goal with
  | |- context [turn_body env self ?k ?c ?i ?m ?x ?u ?f st] =>
      destruct (turn_body env self k c i m x u f st) as [[response|e] st1] eqn:Hrun
  end; [|discriminate].
  intros [= <- <-].
  destruct (turn_body_spec env self _ _ _ _ _ _ _ _ _ _ Hrun)
    as (evs & _ & _ & _ & Hout & _).
  destruct (Hout response eq_refl) as (-> & _ & Hsess).
  destruct (Hsess Hstore) as (_ & Hhist & Hother).
  cbn [out_content]. split; [exact Hhist | exact Hother].
Qed.

End AroundTurn.

Lemma turn_addresses_tools_witness :
  Runtime.message_context
    (Runtime.contexts
       (snd (AgentLoop._process_message (Examples.plain_env (Some "done"))
               (AgentLoop.new Examples.settings "m" 20 false)
               (Examples.inbound_msg "system" "subagent" "telegram:42" "report")
               Examples.start)))
  = Some ("telegram", "42").
Proof.
  apply (turn_addresses_tools (Examples.plain_env (Some "done")) Examples.settings
           "m" 20 false
           (Examples.inbound_msg "system" "subagent" "telegram:42" "report")
           Examples.start).
Defined.

Lemma run_step_always_replies_witness :
  exists reply,
    last (Bus.outbound
            (Runtime.bus
               (AgentLoop.run_step Examples.failing_env Examples.agent
                  (Runtime.set_bus
                     (Bus.publish_inbound
                        (Examples.inbound_msg "system" "subagent" "telegram:42" "report")
                        Bus.init) Examples.start))))
    = Some reply
    /\ Events.out_channel reply = "system".
Proof.
  destruct (run_step_always_replies Examples.failing_env Examples.agent
              (Runtime.set_bus
                 (Bus.publish_inbound
                    (Examples.inbound_msg "system" "subagent" "telegram:42" "report")
                    Bus.init) Examples.start)
              (Examples.inbound_msg "system" "subagent" "telegram:42" "report")
              [] eq_refl) as (reply & Hlast & Hreply).
  exists reply. split; [exact Hlast|].
  vm_compute in Hreply. rewrite Hreply. reflexivity.
Defined.

Lemma process_direct_session_witness :
  Observe.history_of
    (Runtime.sessions
       (snd (Direct.process_direct (Examples.plain_env (Some "done")) Examples.agent
               "run the report" "cron:daily" "cli" "direct" Examples.start)))
    "cron:daily" = []
  /\ length
       (Observe.history_of
          (Runtime.sessions
             (snd (Direct.process_direct (Examples.plain_env (Some "done"))
                     Examples.agent "run the report" "cron:daily" "cli" "direct"
                     Examples.start)))
          "cli:direct") = 2%nat.
Proof.
  assert (Hrun :
    Direct.process_direct (Examples.plain_env (Some "done")) Examples.agent
      "run the report" "cron:daily" "cli" "direct" Examples.start
    = (Ok "done",
       snd (Direct.process_direct (Examples.plain_env (Some "done")) Examples.agent
              "run the report" "cron:daily" "cli" "direct" Examples.start))).
  { rewrite (surjective_pairing (Direct.process_direct _ _ _ _ _ _ _)) at 1.
    f_equal. }
  destruct (process_direct_session (Examples.plain_env (Some "done"))
              Examples.agent "run the report" "cron:daily" "cli" "direct"
              Examples.start "done" _ eq_refl store_ok_empty Hrun)
    as [Hhist Hother].
  change ("cli" +:+ ":" +:+ "direct") with "cli:direct" in Hhist, Hother.
  split.
  - rewrite Hother by discriminate. reflexivity.
  - rewrite Hhist. reflexivity.
Defined.

(** ** The turn of a subagent and the way back of its result *)

Section SubagentTurn.
Import Events ProviderBase Conversation Tools Sessions Runtime Turn Observe Shape.
Import Subagent.

Context {W : Type} (env : Env W).

(** What [_run_subagent] does with the outcome of the turn. *)
Lemma run_subagent_outcome (self : SubagentManager) (task_id task label : string)
    (origin : Origin) (st : State W) :
  _run_subagent env self task_id task label origin st =
  match subagent_turn env self task st with
  | (Ok final_result, st1) =>
      (Ok tt,
       set_bus (Bus.publish_inbound
                  (announcement origin
                     (announce_content label task final_result "ok")) (bus st1)) st1)
  | (Raise e, st1) =>
      (Ok tt,
       set_bus (Bus.publish_inbound
                  (announcement origin
                     (announce_content label task ("错误信息: " +:+ exn_str e) "error"))
                  (bus st1)) st1)
  end.
Proof.
  unfold _run_subagent, bind.
  destruct (subagent_turn env self task st) as [[final_result|e] st1]; reflexivity.
Qed.

Lemma subagent_turn_spec (self : SubagentManager) (task : string) (st : State W) :
  exists evs,
    log (snd (subagent_turn env self task st)) = log st ++ evs
    /\ (llm_calls evs <= 15)%nat
    /\ (forall final_result,
          fst (subagent_turn env self task st) = Ok final_result ->
          final_result = default "任务已执行完毕，但未生成最终响应内容。"
                                 (first_plain_answer evs))
    /\ (never_raises env ->
        exists final_result, fst (subagent_turn env self task st) = Ok final_result).
Proof.
  unfold subagent_turn, bind, ret.
  match goal with
  | |- context [tool_loop env ?a ?t ?m ?n ?i ?ms st] =>
      destruct (tool_loop_spec env a t m n i ms st)
        as (evs & Hlog & _ & Hle & Hexit & Hok);
      destruct (tool_loop env a t m n i ms st) as [[exit|e] st1]
  end; exists evs; cbn [fst snd] in *.
  - split; [exact Hlog|]. split; [exact Hle|]. split; [|eauto].
    intros final_result [= <-]. destruct (Hexit exit eq_refl) as (_ & Hf & _).
    rewrite <- Hf. destruct (final_content exit); reflexivity.
  - split; [exact Hlog|]. split; [exact Hle|]. split; [discriminate|].
    intros Hnr. destruct (Hok Hnr) as [x Hx]. discriminate.
Qed.

(** X17.  A run of a subagent calls the provider at most fifteen times.
    When the provider and the tools answer, the message it leaves at the end
    of the inbound queue reports, with status ok, the content of the answer
    that came without tool calls and with a content that is not null, and
    the fixed text of the subagent when there was no such answer. *)
Theorem subagent_turn_bounded (self : SubagentManager) (task_id task label : string)
    (origin : Origin) (st : State W) :
  exists evs,
    log (snd (_run_subagent env self task_id task label origin st)) = log st ++ evs
    /\ (llm_calls evs <= 15)%nat
    /\ (never_raises env ->
        last (Bus.inbound (bus (snd (_run_subagent env self task_id task label
                                       origin st))))
        = Some (announcement origin
                  (announce_content label task
                     (default "任务已执行完毕，但未生成最终响应内容。"
                              (first_plain_answer evs)) "ok"))).
Proof.
  rewrite run_subagent_outcome.
  destruct (subagent_turn_spec self task st) as (evs & Hlog & Hle & Hfinal & Hok).
  exists evs.
  destruct (subagent_turn env self task st) as [[final_result|e] st1];
    cbn [fst snd] in *.
  - split; [exact Hlog|]. split; [exact Hle|]. intros _.
    rewrite (Hfinal final_result eq_refl).
    cbn [bus set_bus Bus.publish_inbound Bus.inbound]. apply last_snoc.
  - split; [exact Hlog|]. split; [exact Hle|].
    intros Hnr. destruct (Hok Hnr) as [x Hx]. discriminate.
Qed.

(** X18.  The message a subagent leaves on the inbound queue finds its
    way back: when the agent loop processes it to the end, the reply is
    addressed to the origin's channel and chat, provided the channel of the
    origin holds no colon.  With a colon in it the channel of the reply is
    only what stands before that colon, the rest going to the chat. *)
Theorem announcement_returns_to_origin (self : SubagentManager)
    (task_id task label : string) (origin : Origin) (st : State W)
    (loop_env : Env W) (loop : AgentLoop.AgentLoop) (msg : InboundMessage)
    (st2 : State W) (out : option OutboundMessage) (st3 : State W) :
  last (Bus.inbound (bus (snd (_run_subagent env self task_id task label origin st))))
  = Some msg ->
  AgentLoop._process_message loop_env loop msg st2 = (Ok out, st3) ->
  (PyStr.contains ":" (origin_channel origin) = false ->
   exists o, out = Some o
     /\ out_channel o = origin_channel origin
     /\ out_chat_id o = origin_chat_id origin)
  /\ (forall a b,
        origin_channel origin = a +:+ ":" +:+ b ->
        PyStr.contains ":" a = false ->
        exists o, out = Some o
          /\ out_channel o = a
          /\ out_chat_id o = b +:+ ":" +:+ origin_chat_id origin).
Proof.
  rewrite run_subagent_outcome.
  assert (Hmsg : exists content,
             last (Bus.inbound
                     (bus (snd (match subagent_turn env self task st with
                                | (Ok final_result, st1) =>
                                    (Ok tt,
                                     set_bus (Bus.publish_inbound
                                                (announcement origin
                                                   (announce_content label task
                                                      final_result "ok"))
                                                (bus st1)) st1)
                                | (Raise e, st1) =>
                                    (Ok tt,
                                     set_bus (Bus.publish_inbound
                                                (announcement origin
                                                   (announce_content label task
                                                      ("错误信息: " +:+ exn_str e)
                                                      "error"))
                                                (bus st1)) st1)
                                end))))
             = Some (announcement origin content)).
  { destruct (subagent_turn env self task st) as [[final_result|e] st1];
      eexists; cbn [snd bus set_bus Bus.publish_inbound Bus.inbound];
      apply last_snoc. }
  destruct Hmsg as [content Hlast]. rewrite Hlast. intros [= <-] Hrun.
  unfold AgentLoop._process_message in Hrun.
  cbn [announcement in_channel] in Hrun.
  change (String.eqb "system" "system") with true in Hrun. cbv iota in Hrun.
  rewrite process_system_message_body in Hrun.
  destruct (turn_body_spec loop_env loop _ _ _ _ _ _ _ _ _ _ Hrun)
    as (evs & _ & _ & _ & Hout & _).
  destruct (Hout out eq_refl) as (-> & _).
  cbn [announcement in_chat_id]. split.
  - intros Hc. eexists. split; [reflexivity|]. cbn [out_channel out_chat_id].
    rewrite (parse_origin_colon _ _ Hc). auto.
  - intros a b Hab Ha. eexists. split; [reflexivity|].
    cbn [out_channel out_chat_id]. rewrite Hab, string_app_assoc.
    change ((":" +:+ b) +:+ ":" +:+ origin_chat_id origin)
      with (":" +:+ b +:+ ":" +:+ origin_chat_id origin).
    rewrite (parse_origin_colon _ _ Ha). auto.
Qed.

End SubagentTurn.

Lemma announcement_returns_to_origin_witness :
  exists o,
    fst (AgentLoop._process_message (Examples.plain_env (Some "done")) Examples.agent
           (Shape.announcement
              {| Subagent.origin_channel := "telegram";
                 Subagent.origin_chat_id := "42" |}
              (Subagent.announce_content "count" "count the files"
                 "错误信息: connection refused" "error"))
           Examples.start) = Ok (Some o)
    /\ Events.out_channel o = "telegram" /\ Events.out_chat_id o = "42".
Proof.
  assert (Hrun : exists out,
    AgentLoop._process_message (Examples.plain_env (Some "done")) Examples.agent
      (Shape.announcement
         {| Subagent.origin_channel := "telegram"; Subagent.origin_chat_id := "42" |}
         (Subagent.announce_content "count" "count the files"
            "错误信息: connection refused" "error"))
      Examples.start
    = (Ok out,
       snd (AgentLoop._process_message (Examples.plain_env (Some "done"))
              Examples.agent
              (Shape.announcement
                 {| Subagent.origin_channel := "telegram";
                    Subagent.origin_chat_id := "42" |}
                 (Subagent.announce_content "count" "count the files"
                    "错误信息: connection refused" "error"))
              Examples.start))).
  { eexists. rewrite (surjective_pairing (AgentLoop._process_message _ _ _ _)) at 1.
    f_equal. }
  destruct Hrun as (out & Hrun).
  destruct (announcement_returns_to_origin Examples.failing_env
              {| Subagent.sm_settings := Examples.settings; Subagent.sm_model := "m" |}
              "1a2b3c4d" "count the files" "count"
              {| Subagent.origin_channel := "telegram"; Subagent.origin_chat_id := "42" |}
              Examples.start (Examples.plain_env (Some "done")) Examples.agent
              _ Examples.start out _ eq_refl Hrun) as [Hback _].
  destruct (Hback eq_refl) as (o & -> & Hc & Hi).
  exists o. rewrite Hrun. auto.
Defined.

Lemma subagent_turn_bounded_witness :
  last (Bus.inbound
          (Runtime.bus
             (snd (Subagent._run_subagent (Examples.plain_env None)
                     {| Subagent.sm_settings := Examples.settings;
                        Subagent.sm_model := "m" |}
                     "1a2b3c4d" "count the files" "count"
                     {| Subagent.origin_channel := "telegram";
                        Subagent.origin_chat_id := "42" |}
                     Examples.start))))
  = Some (Shape.announcement
            {| Subagent.origin_channel := "telegram"; Subagent.origin_chat_id := "42" |}
            (Subagent.announce_content "count" "count the files"
               "任务已执行完毕，但未生成最终响应内容。" "ok")).
Proof.
  destruct (subagent_turn_bounded (Examples.plain_env None)
              {| Subagent.sm_settings := Examples.settings; Subagent.sm_model := "m" |}
              "1a2b3c4d" "count the files" "count"
              {| Subagent.origin_channel := "telegram"; Subagent.origin_chat_id := "42" |}
              Examples.start) as (evs & Hlog & _ & Hlast).
  rewrite (Hlast (never_raises_plain None)).
  assert (Hevs : Observe.first_plain_answer evs = None).
  { change evs with (Runtime.log Examples.start ++ evs). rewrite <- Hlog.
    vm_compute. reflexivity. }
  now rewrite Hevs.
Defined.

(** ** What the provider is shown *)

Section ProviderView.
Import Events ProviderBase Conversation Tools Sessions Runtime Turn Observe Shape.

Context {W : Type} (env : Env W).

Lemma tool_loop_calls
    (add : list ChatMessage -> LLMResponse -> list ChatMessage)
    (entry : LLMResponse -> ChatMessage)
    (tools : list (string * Tool)) (model : string) (remaining : nat) :
  (forall messages response, add messages response = messages ++ [entry response]) ->
  forall (it : nat) (messages : list ChatMessage) (st : State W),
  exists evs,
    log (snd (tool_loop env add tools model remaining it messages st))
    = log st ++ evs
    /\ forall shown answer,
         In (LlmCall shown answer) evs ->
         exists rounds,
           Forall complete_round rounds
           /\ shown = messages ++ round_entries entry rounds.
Proof.
  intros Hadd. induction remaining as [|remaining IH]; intros it messages st.
  - exists []. cbn. rewrite app_nil_r. split; [reflexivity | contradiction].
  - rewrite tool_loop_step.
    destruct (provider_chat env messages (get_definitions tools) model (world st))
      as [[response|e] w].
    2:{ exists [LlmCall messages (Raise e)]. split; [reflexivity|].
        intros shown answer [[= <- <-] | []]. exists [].
        cbn. rewrite app_nil_r. auto. }
    cbv zeta. set (st1 := set_world w [LlmCall messages (Ok response)] st).
    destruct (has_tool_calls response) eqn:Htc.
    + destruct (run_tool_calls_spec env tools (tool_calls response)
                  (add messages response) st1) as (evs_t & Hlog_t & _ & Hquiet & _).
      pose proof (fun m => run_tool_calls_entries env tools (tool_calls response)
                              (add messages response) m st1) as Hentries.
      destruct (run_tool_calls env tools (tool_calls response)
                  (add messages response) st1) as [[messages'|e] st2].
      * cbn [snd] in Hlog_t.
        destruct (Hentries messages' eq_refl) as (results & Hlen & Hm).
        destruct (IH (S it) messages' st2) as (evs & Hlog & Hshown).
        exists (LlmCall messages (Ok response) :: evs_t ++ evs). split.
        -- rewrite Hlog, Hlog_t. unfold st1. cbn [log set_world].
           rewrite <- !app_assoc. reflexivity.
        -- intros shown answer [[= <- <-] | Hin].
           ++ exists []. cbn. rewrite app_nil_r. auto.
           ++ apply in_app_or in Hin. destruct Hin as [Hin | Hin].
              ** rewrite Forall_forall in Hquiet.
                 apply list_elem_of_In, Hquiet in Hin. discriminate.
              ** destruct (Hshown _ _ Hin) as (rounds & Hall & ->).
                 exists ((response, results) :: rounds). split.
                 --- constructor; [split; assumption | exact Hall].
                 --- rewrite Hm, Hadd. cbn [round_entries].
                     rewrite <- !app_assoc. reflexivity.
      * cbn [snd] in Hlog_t |- *.
        exists (LlmCall messages (Ok response) :: evs_t). split.
        -- rewrite Hlog_t. unfold st1. cbn [log set_world].
           rewrite <- app_assoc. reflexivity.
        -- intros shown answer [[= <- <-] | Hin].
           ++ exists []. cbn. rewrite app_nil_r. auto.
           ++ rewrite Forall_forall in Hquiet.
              apply list_elem_of_In, Hquiet in Hin. discriminate.
    + exists [LlmCall messages (Ok response)]. split; [reflexivity|].
      intros shown answer [[= <- <-] | []]. exists [].
      cbn. rewrite app_nil_r. auto.
Qed.

(** X19.  Every call of the provider in the loop of a turn of the agent is
    given the message list the loop began with, followed by complete rounds
    only: after each assistant entry that offers tool calls stands one tool
    entry for each call offered.  The provider is never shown an offer
    without its results. *)
Theorem provider_sees_complete_rounds (self : AgentLoop.AgentLoop)
    (messages : list ChatMessage) (st : State W) :
  exists evs,
    log (snd (AgentLoop.agent_loop env self messages st)) = log st ++ evs
    /\ forall shown answer,
         In (LlmCall shown answer) evs ->
         exists rounds,
           shown = messages ++ round_entries (agent_entry env) rounds
           /\ Forall
                (fun round =>
                   has_tool_calls (fst round) = true
                   /\ length (tool_entries (tool_calls (fst round)) (snd round))
                      = length (tool_calls (fst round)))
                rounds.
Proof.
  assert (Hadd : forall m r,
             AgentLoop.add_assistant env m r = m ++ [agent_entry env r]).
  { intros m r. unfold AgentLoop.add_assistant, add_assistant_message, agent_entry.
    destruct (tool_call_dicts env r); reflexivity. }
  destruct (tool_loop_calls (AgentLoop.add_assistant env) (agent_entry env)
              (AgentLoop.tools self) (AgentLoop.model self)
              (Z.to_nat (AgentLoop.max_iterations self)) Hadd 0%nat messages st)
    as (evs & Hlog & Hshown).
  exists evs. split; [exact Hlog|].
  intros shown answer Hin. destruct (Hshown _ _ Hin) as (rounds & Hall & ->).
  exists rounds. split; [reflexivity|].
  eapply Forall_impl; [exact Hall|].
  intros [response results] [Htc Hlen]. cbn [fst snd] in *. split; [exact Htc|].
  clear -Hlen. revert results Hlen.
  induction (tool_calls response) as [|tc calls IH]; intros [|r results] H;
    try discriminate; [reflexivity|].
  cbn [tool_entries length]. f_equal. apply IH. simpl in H. lia.
Qed.

End ProviderView.

Lemma provider_sees_complete_rounds_witness :
  exists shown answer,
    In (Runtime.LlmCall shown answer)
       (Runtime.log (snd (AgentLoop.agent_loop Scenario.tool_env Examples.agent
                            [Conversation.MsgSystem "p"] Scenario.start)))
    /\ length shown = 3%nat
    /\ exists rounds,
         shown = [Conversation.MsgSystem "p"]
                 ++ Shape.round_entries (Shape.agent_entry Scenario.tool_env) rounds.
Proof.
  destruct (provider_sees_complete_rounds Scenario.tool_env Examples.agent
              [Conversation.MsgSystem "p"] Scenario.start) as (evs & Hlog & Hshown).
  change (Runtime.log Scenario.start ++ evs) with evs in Hlog.
  assert (Hin : exists shown answer,
             In (Runtime.LlmCall shown answer)
                (Runtime.log (snd (AgentLoop.agent_loop Scenario.tool_env
                                     Examples.agent [Conversation.MsgSystem "p"]
                                     Scenario.start)))
             /\ length shown = 3%nat).
  { do 2 eexists. split; [vm_compute; right; right; left; reflexivity|].
    reflexivity. }
  destruct Hin as (shown & answer & Hin & Hlen).
  exists shown, answer. split; [exact Hin|]. split; [exact Hlen|].
  rewrite Hlog in Hin. destruct (Hshown _ _ Hin) as (rounds & -> & _).
  exists rounds. reflexivity.
Defined.
